(** * project-channel-notifier: unanswered-message alerts

    A shallow embedding of the two observed variants of the bot:

    - [Index]  : src/index.js, the list based variant.  It remembers the ids
      of alerted messages in [db.alertedMessages], resolves answers by a
      later staff reply or a staff reaction, and sends alerts in batches
      of five.
    - [Part0]  : src/unnamed/part_000, the record based variant.  It keeps a
      record [{ lastAlert, snoozedUntil, handled }] per channel-message key,
      resolves answers by a later staff reply only, and applies wait time,
      night check and cooldown.

    What the Discord transport answers is data of the model: a message
    carries its cached member and the outcome of [reaction.users.fetch()],
    a channel carries the replies to its successive [messages.fetch] calls,
    and the guild carries [members.fetch] and [members.cache.get], which
    answer the same way throughout a run.  A rejected promise is [None].
    Timestamps are integers (milliseconds).  Fetching the guild and writing
    db.json are taken to succeed. *)

From Stdlib Require Import ZArith Lia.
From stdpp Require Import base option list strings gmap sorting.
Local Open Scope Z_scope.

(** ** The Discord objects the bot reads *)

Record Role := { role_id : string; role_name : string }.

(** [member.roles.cache] *)
Record Member := { roles_cache : list Role }.

Record User := { user_id : string; username : string; bot : bool }.

(** One entry of [msg.reactions.cache]; [users_fetch] is what
    [await reaction.users.fetch()] gives, [None] when it rejects. *)
Record MessageReaction := { emoji : string; users_fetch : option (list User) }.

Record Message := {
  msg_id : string;
  channelId : string;
  createdTimestamp : Z;
  author : User;
  member : option Member;
  reactions_cache : list MessageReaction;
  url : string;
  content : string
}.

(** [messages_fetch] lists the replies of the transport to the successive
    [channel.messages.fetch(options)] calls made on this channel during one
    run; when the list is used up the transport answers with an empty page. *)
Record Channel := {
  channel_id : string;
  channel_name : string;
  isTextBased : bool;
  messages_fetch : list (option (list Message))
}.

Record Guild := {
  guild_roles_cache : list Role;
  members_fetch : string -> option Member;
  members_cache_get : string -> option Member
}.

(** ** JavaScript helpers *)

(** [s.endsWith(suffix)] *)
Definition endsWith (s suffix : string) : bool :=
  let n := String.length s in
  let k := String.length suffix in
  if (k <=? n)%nat then String.eqb (String.substring (n - k) k s) suffix else false.

(** [array.includes(x)] on an array of strings *)
Definition includes (l : list string) (x : string) : bool := bool_decide (x ∈ l).

(** [member.roles.cache.has(roleId)] *)
Definition roles_has (m : Member) (roleId : string) : bool :=
  existsb (fun r => String.eqb (role_id r) roleId) (roles_cache m).

(** [role => role.name.endsWith("-ext")] *)
Definition isClientRole (r : Role) : bool := endsWith (role_name r) "-ext".

(** [member?.roles.cache.some(role => role.name.endsWith("-ext"))] *)
Definition hasClientRole (m : Member) : bool := existsb isClientRole (roles_cache m).

(** The line feed of a template literal. *)
Definition nl : string :=
  String (Ascii.Ascii false true false true false false false false) EmptyString.

(** [msg.member], else [await guild.members.fetch(msg.author.id)];
    [None] is the [continue] of the catch block. *)
Definition resolveMember (g : Guild) (msg : Message) : option Member :=
  match member msg with
  | Some m => Some m
  | None => members_fetch g (user_id (author msg))
  end.

(** ** src/index.js *)
Module Index.

Record Env := {
  MANAGER_ROLE_ID : string;
  PROJECT_MGMT_CHANNEL_ID : string
}.

(** What the outside world answers during one run. [Date_now] is the clock
    reading taken when the named channel is fetched; [channels_fetch_pm] says
    whether [client.channels.fetch(PROJECT_MGMT_CHANNEL_ID)] resolves;
    [send_resolves n] says whether the n-th [pmChannel.send] resolves. *)
Record World := {
  guild : Guild;
  channels_cache : list Channel;
  Date_now : string -> Z;
  channels_fetch_pm : bool;
  send_resolves : nat -> bool
}.

(** [3 * 60 * 60 * 1000] *)
Definition timeWindow : Z := 3 * 60 * 60 * 1000.

(** The [for (const msg of batch.values())] loop of [fetchRecentMessages]:
    the flag tells that the function returned from inside the loop. *)
Fixpoint scanBatch (cutoffTime : Z) (batch messages : list Message)
  : list Message * bool :=
  match batch with
  | [] => (messages, false)
  | msg :: rest =>
      if createdTimestamp msg <? cutoffTime then (messages, true)
      else scanBatch cutoffTime rest (messages ++ [msg])
  end.

(** The [while (true)] loop of [fetchRecentMessages], one iteration per
    reply of the transport; [None] is a rejected fetch. *)
Fixpoint fetchLoop (cutoffTime : Z) (replies : list (option (list Message)))
    (messages : list Message) : option (list Message) :=
  match replies with
  | [] => Some messages
  | None :: _ => None
  | Some batch :: later =>
      let '(messages', returned) := scanBatch cutoffTime batch messages in
      if returned then Some messages'
      else if (length batch <? 100)%nat then Some messages'
      else match last batch with
           | Some lastMsg =>
               if createdTimestamp lastMsg <? cutoffTime then Some messages'
               else fetchLoop cutoffTime later messages'
           | None => fetchLoop cutoffTime later messages'
           end
  end.

Definition fetchRecentMessages (now : Z) (channel : Channel) : option (list Message) :=
  let cutoffTime := now - timeWindow in
  fetchLoop cutoffTime (messages_fetch channel) [].

(** [allMessages.sort((a, b) => a.createdTimestamp - b.createdTimestamp)]:
    ascending and stable. *)
Fixpoint insertByTimestamp (m : Message) (l : list Message) : list Message :=
  match l with
  | [] => [m]
  | x :: rest =>
      if createdTimestamp m <=? createdTimestamp x then m :: l
      else x :: insertByTimestamp m rest
  end.

Definition sortByTimestamp (l : list Message) : list Message :=
  foldr insertByTimestamp [] l.

(** The sorted window of a channel, as the message loop receives it. *)
Definition allMessagesOf (w : World) (channel : Channel) : option (list Message) :=
  sortByTimestamp <$> fetchRecentMessages (Date_now w (channel_id channel)) channel.

(** The callback of [allMessages.some(replyMsg => ...)]. *)
Definition isStaffReply (env : Env) (g : Guild) (msg replyMsg : Message) : bool :=
  if negb (String.eqb (channelId replyMsg) (channelId msg)) then false
  else if createdTimestamp replyMsg <=? createdTimestamp msg then false
  else if bot (author replyMsg) then false
  else
    let replyMember :=
      match member replyMsg with
      | Some m => Some m
      | None => members_cache_get g (user_id (author replyMsg))
      end in
    match replyMember with
    | Some m => roles_has m (MANAGER_ROLE_ID env)
    | None => false
    end.

Definition hasStaffReply (env : Env) (g : Guild) (allMessages : list Message)
    (msg : Message) : bool :=
  existsb (isStaffReply env g msg) allMessages.

(** The [for (const [userId, user] of users)] loop: true when it returns true. *)
Definition staffAmong (env : Env) (g : Guild) (users : list User) : bool :=
  existsb (fun user =>
    if bot user then false
    else match members_fetch g (user_id user) with
         | Some reactionMember => roles_has reactionMember (MANAGER_ROLE_ID env)
         | None => false
         end) users.

(** The loop over [msg.reactions.cache]; the second component lists the
    emojis whose [reaction.users.fetch()] was awaited, in order. *)
Fixpoint reactionLoop (env : Env) (g : Guild) (reactions : list MessageReaction)
  : bool * list string :=
  match reactions with
  | [] => (false, [])
  | reaction :: rest =>
      match users_fetch reaction with
      | Some users =>
          if staffAmong env g users then (true, [emoji reaction])
          else let '(b, fetched) := reactionLoop env g rest in
               (b, emoji reaction :: fetched)
      | None =>
          let '(b, fetched) := reactionLoop env g rest in
          (b, emoji reaction :: fetched)
      end
  end.

Definition hasStaffReaction (env : Env) (g : Guild) (msg : Message)
  : bool * list string :=
  reactionLoop env g (reactions_cache msg).

(** One element pushed to [unansweredMessages]. *)
Record Alert := {
  messageId : string;
  alert_channelId : string;
  channelName : string;
  authorName : string;
  authorId : string;
  messageUrl : string;
  createdAt : Z
}.

Definition mkAlert (channel : Channel) (msg : Message) : Alert :=
  {| messageId := msg_id msg;
     alert_channelId := channel_id channel;
     channelName := channel_name channel;
     authorName := username (author msg);
     authorId := user_id (author msg);
     messageUrl := url msg;
     createdAt := createdTimestamp msg |}.

(** The two arrays filled by the scan, and the reaction look-ups it made
    (message id and emoji of every awaited [reaction.users.fetch()]). *)
Record Scan := {
  unansweredMessages : list Alert;
  answeredMessageIds : list string;
  reactionFetches : list (string * string)
}.

Definition emptyScan : Scan :=
  {| unansweredMessages := []; answeredMessageIds := []; reactionFetches := [] |}.

(** The author filter at the head of the message loop: not a bot, a member
    that resolves, and a role ending in -ext. *)
Definition isMonitored (g : Guild) (msg : Message) : bool :=
  if bot (author msg) then false
  else match resolveMember g msg with
       | None => false
       | Some m => hasClientRole m
       end.

Definition isAnswered (env : Env) (g : Guild) (allMessages : list Message)
    (msg : Message) : bool :=
  hasStaffReply env g allMessages msg || (hasStaffReaction env g msg).1.

(** Body of [for (const msg of allMessages)]. *)
Definition processMessage (env : Env) (g : Guild) (alertedMessages : list string)
    (channel : Channel) (allMessages : list Message) (st : Scan) (msg : Message) : Scan :=
  if bot (author msg) then st
  else match resolveMember g msg with
  | None => st
  | Some m =>
    if negb (hasClientRole m) then st
    else
      let hasReply := hasStaffReply env g allMessages msg in
      let '(hasReaction, fetched) := hasStaffReaction env g msg in
      let answered := hasReply || hasReaction in
      let log := reactionFetches st ++ ((fun e => (msg_id msg, e)) <$> fetched) in
      let ids :=
        if answered && includes alertedMessages (msg_id msg)
        then answeredMessageIds st ++ [msg_id msg]
        else answeredMessageIds st in
      let queue :=
        if negb answered && negb (includes alertedMessages (msg_id msg))
        then unansweredMessages st ++ [mkAlert channel msg]
        else unansweredMessages st in
      {| unansweredMessages := queue; answeredMessageIds := ids; reactionFetches := log |}
  end.

(** Body of [for (const [channelId, channel] of textChannels)]; a rejected
    fetch is caught and the channel is skipped. *)
Definition scanChannel (env : Env) (w : World) (alertedMessages : list string)
    (st : Scan) (channel : Channel) : Scan :=
  match allMessagesOf w channel with
  | None => st
  | Some allMessages =>
      fold_left (processMessage env (guild w) alertedMessages channel allMessages)
                allMessages st
  end.

Definition textChannels (w : World) : list Channel :=
  filter (fun ch => isTextBased ch = true) (channels_cache w).

Definition scan (env : Env) (w : World) (alertedMessages : list string) : Scan :=
  fold_left (scanChannel env w alertedMessages) (textChannels w) emptyScan.

(** [for (let i = 0; i < n; i += 5) alertBatches.push(slice(i, i + 5))] *)
Fixpoint slices (fuel : nat) (l : list Alert) : list (list Alert) :=
  match fuel with
  | O => []
  | S fuel' =>
      match l with
      | [] => []
      | _ => take 5 l :: slices fuel' (drop 5 l)
      end
  end.

Definition alertBatches (l : list Alert) : list (list Alert) := slices (length l) l.

Definition alertLine (m : Alert) : string :=
  "**Unanswered**: Message from **" +:+ authorName m +:+ "** in <#" +:+
  alert_channelId m +:+ "> channel. " +:+ nl +:+
  "[Jump to message](" +:+ messageUrl m +:+ ")".

Definition batchText (env : Env) (batch : list Alert) : string :=
  "<@&" +:+ MANAGER_ROLE_ID env +:+ ">" +:+ nl +:+
  String.concat (nl +:+ nl) (alertLine <$> batch).

(** [for (const batch of alertBatches)]: send, then mark.  A rejected send
    leaves the loop for the catch block.  [n] counts the sends made so far. *)
Fixpoint sendBatches (env : Env) (w : World) (n : nat) (batches : list (list Alert))
    (alertedMessages : list string) (sent : list string)
  : list string * list string :=
  match batches with
  | [] => (alertedMessages, sent)
  | batch :: rest =>
      if send_resolves w n then
        sendBatches env w (S n) rest
          (alertedMessages ++ (messageId <$> batch))
          (sent ++ [batchText env batch])
      else (alertedMessages, sent)
  end.

(** What a run leaves behind: the array saved to db.json, the content of
    [unansweredMessages] after the scan, the texts sent to the management
    channel, and the exit code. *)
Record Outcome := {
  saved : list string;
  queued : list Alert;
  sent_texts : list string;
  exit_code : Z
}.

(** The ready handler. *)
Definition run (env : Env) (w : World) (alertedMessages : list string) : Outcome :=
  let clientRoles := filter (fun r => isClientRole r = true) (guild_roles_cache (guild w)) in
  if (length clientRoles =? 0)%nat then
    {| saved := alertedMessages; queued := []; sent_texts := []; exit_code := 0 |}
  else
    let st := scan env w alertedMessages in
    let db1 :=
      if (0 <? length (answeredMessageIds st))%nat
      then filter (fun i => includes (answeredMessageIds st) i = false) alertedMessages
      else alertedMessages in
    if (0 <? length (unansweredMessages st))%nat then
      if channels_fetch_pm w then
        let '(db2, sent) :=
          sendBatches env w 0 (alertBatches (unansweredMessages st)) db1 [] in
        {| saved := db2; queued := unansweredMessages st; sent_texts := sent;
           exit_code := 0 |}
      else {| saved := db1; queued := unansweredMessages st; sent_texts := [];
              exit_code := 0 |}
    else {| saved := db1; queued := []; sent_texts := []; exit_code := 0 |}.

End Index.

(** ** src/unnamed/part_000 *)
Module Part0.

(** [TESTING] is the switch at the top of the file (shipped as [true],
    "set to false for production"). *)
Record Env := {
  TESTING : bool;
  STAFF_ROLE_ID : string;
  PROJECT_MGMT_CHANNEL_ID : string
}.

Definition TEST_WAIT_TIME : Z := 2 * 60 * 1000.
Definition TEST_ALERT_COOLDOWN : Z := 1 * 60 * 1000.
Definition PROD_WAIT_TIME : Z := 45 * 60 * 1000.
Definition PROD_ALERT_COOLDOWN : Z := 30 * 60 * 1000.

(** The values found in a record of db.json: numbers and booleans. *)
Inductive Val := VNum (z : Z) | VBool (b : bool).

(** One record of the store is a JavaScript object, [gmap string Val]; the
    store maps the key [`${channel.id}-${msg.id}`] to its record. *)

(** Truthiness, and [x || d] on a property that may be undefined. *)
Definition truthy (v : Val) : bool :=
  match v with
  | VNum z => negb (z =? 0)
  | VBool b => b
  end.

Definition orDefault (x : option Val) (d : Val) : Val :=
  match x with
  | Some v => if truthy v then v else d
  | None => d
  end.

(** Conversion to a number, as done by [-] and [>]. *)
Definition toNumber (v : Val) : Z :=
  match v with
  | VNum z => z
  | VBool b => if b then 1 else 0
  end.

(** What the outside world answers during one run: [now] is the one
    [Date.now()] taken before the channel loop, [getHours] the local hour read
    by [new Date().getHours()] (the run stays within one hour of the day, so
    every reading gives this value), [send_resolves n] whether the n-th
    [pmChannel.send] resolves. *)
Record World := {
  guild : Guild;
  channels_cache : list Channel;
  now : Z;
  getHours : Z;
  channels_fetch_pm : bool;
  send_resolves : nat -> bool
}.

(** [await channel.messages.fetch({ limit: 20 })]: the first reply of the
    transport for this channel. *)
Definition fetchMessages (channel : Channel) : option (list Message) :=
  match messages_fetch channel with
  | [] => Some []
  | reply :: _ => reply
  end.

(** The inner loop over [msgs] that fills [staffReplies]. *)
Definition isStaffReply (env : Env) (g : Guild) (msg replyMsg : Message) : bool :=
  if createdTimestamp replyMsg <=? createdTimestamp msg then false
  else match resolveMember g replyMsg with
       | None => false
       | Some replyMember => roles_has replyMember (STAFF_ROLE_ID env)
       end.

Definition staffReplies (env : Env) (g : Guild) (msgs : list Message) (msg : Message)
  : list Message :=
  List.filter (isStaffReply env g msg) msgs.

Definition staffReplied (env : Env) (g : Guild) (msgs : list Message) (msg : Message)
  : bool :=
  (0 <? length (staffReplies env g msgs msg))%nat.

(** The three ways the policy part of the loop body can end. *)
Inductive Decision := NoAction | Suppress | AlertNow.

Definition waitTimeOf (env : Env) : Z :=
  if TESTING env then TEST_WAIT_TIME else PROD_WAIT_TIME.

Definition cooldownOf (env : Env) : Z :=
  if TESTING env then TEST_ALERT_COOLDOWN else PROD_ALERT_COOLDOWN.

(** [new Date().getHours() < 8 || new Date().getHours() >= 21], on the two
    clock readings. *)
Definition isNight (h1 h2 : Z) : bool := (h1 <? 8) || (h2 >=? 21).

(** Lines 131-160: from [existing] to the cooldown test.  [NoAction] is the
    [continue] of the handled/snoozed test or a false [isOld || nightCheck];
    [Suppress] is a false cooldown test; [AlertNow] is the branch that
    queues the alert. *)
Definition decideAlert (env : Env) (existing : gmap string Val) (created now h1 h2 : Z) : Decision :=
  let lastAlert := orDefault (existing !! "lastAlert") (VNum 0) in
  let snoozedUntil := orDefault (existing !! "snoozedUntil") (VNum 0) in
  let handled := orDefault (existing !! "handled") (VBool false) in
  if truthy handled || (toNumber snoozedUntil >? now) then NoAction
  else
    let msgAge := now - created in
    let waitTime := waitTimeOf env in
    let isOld := msgAge >? waitTime in
    let nightCheck :=
      negb (TESTING env) && isNight h1 h2 && (msgAge <? 12 * 60 * 60 * 1000) in
    if isOld || nightCheck then
      let cooldown := cooldownOf env in
      if now - toNumber lastAlert >? cooldown then AlertNow else Suppress
    else NoAction.

(** [`${channel.id}-${msg.id}`] *)
Definition keyOf (channel : Channel) (msg : Message) : string :=
  channel_id channel +:+ "-" +:+ msg_id msg.

(** The object literal [{ lastAlert: now, handled: false }]. *)
Definition alertRecord (now : Z) : gmap string Val :=
  {[ "lastAlert" := VNum now; "handled" := VBool false ]}.

Definition alertText (env : Env) (channel : Channel) (msg : Message) : string :=
  "<@&" +:+ STAFF_ROLE_ID env +:+ "> Message from **" +:+ username (author msg) +:+
  "** in <#" +:+ channel_id channel +:+ ">" +:+ nl +:+
  "[Jump to message](" +:+ url msg +:+ ")".

(** The store and the queue during the channel loop.  [queuedKeys] is
    bookkeeping of the model: the key of every alert pushed to
    [alertMessages], in the same order. *)
Record State := {
  db : gmap string (gmap string Val);
  alertMessages : list string;
  queuedKeys : list string
}.

(** The author filter and the staff-reply test at the head of the loop
    body: true when the message reaches the policy part. *)
Definition isCandidate (env : Env) (g : Guild) (msgs : list Message) (msg : Message)
  : bool :=
  if bot (author msg) then false
  else match resolveMember g msg with
       | None => false
       | Some m =>
           if negb (hasClientRole m) then false
           else negb (staffReplied env g msgs msg)
       end.

(** Body of [for (const [msgId, msg] of msgs)]. *)
Definition processMessage (env : Env) (w : World) (channel : Channel)
    (msgs : list Message) (st : State) (msg : Message) : State :=
  if bot (author msg) then st
  else match resolveMember (guild w) msg with
  | None => st
  | Some m =>
    if negb (hasClientRole m) then st
    else if staffReplied env (guild w) msgs msg then st
    else
      let key := keyOf channel msg in
      let existing := default ∅ (db st !! key) in
      match decideAlert env existing (createdTimestamp msg) (now w) (getHours w) (getHours w) with
      | AlertNow =>
          {| db := <[ key := alertRecord (now w) ]> (db st);
             alertMessages := alertMessages st ++ [alertText env channel msg];
             queuedKeys := queuedKeys st ++ [key] |}
      | _ => st
      end
  end.

(** Body of [for (const [channelId, channel] of textChannels)]. *)
Definition scanChannel (env : Env) (w : World) (st : State) (channel : Channel) : State :=
  match fetchMessages channel with
  | None => st
  | Some msgs => fold_left (processMessage env w channel msgs) msgs st
  end.

Definition textChannels (w : World) : list Channel :=
  filter (fun ch => isTextBased ch = true) (channels_cache w).

Definition scan (env : Env) (w : World) (db0 : gmap string (gmap string Val)) : State :=
  fold_left (scanChannel env w) (textChannels w)
    {| db := db0; alertMessages := []; queuedKeys := [] |}.

(** [for (const alert of alertMessages) await pmChannel.send(alert)]: the
    texts sent before the first rejected send. *)
Fixpoint sendAll (w : World) (n : nat) (alerts : list string) : list string :=
  match alerts with
  | [] => []
  | alert :: rest =>
      if send_resolves w n then alert :: sendAll w (S n) rest else []
  end.

(** What a run leaves behind: the content of db.json, the keys of the
    alerts that were queued, and the texts actually sent. *)
Record Outcome := {
  saved : gmap string (gmap string Val);
  queued : list string;
  sent_texts : list string
}.

(** The clientReady handler.  Without client roles it returns before
    anything is saved, so db.json keeps what was loaded. *)
Definition run (env : Env) (w : World) (db0 : gmap string (gmap string Val)) : Outcome :=
  let clientRoles := filter (fun r => isClientRole r = true) (guild_roles_cache (guild w)) in
  if (length clientRoles =? 0)%nat then
    {| saved := db0; queued := []; sent_texts := [] |}
  else
    let st := scan env w db0 in
    let sent :=
      if (0 <? length (alertMessages st))%nat then
        if channels_fetch_pm w then sendAll w 0 (alertMessages st) else []
      else [] in
    {| saved := db st; queued := queuedKeys st; sent_texts := sent |}.

End Part0.

(** * Notions used in the statements *)

(** Chronological order, oldest first: every message is at most as recent
    as all the messages after it. *)
Definition ascending : list Message -> Prop :=
  StronglySorted (fun a b => createdTimestamp a <= createdTimestamp b).

(** The message is pushed to [unansweredMessages]. *)
Definition queues (env : Index.Env) (g : Guild) (alerted : list string)
    (allMessages : list Message) (m : Message) : bool :=
  Index.isMonitored g m && negb (Index.isAnswered env g allMessages m)
  && negb (includes alerted (msg_id m)).

(** The id of the message is pushed to [answeredMessageIds]. *)
Definition clears (env : Index.Env) (g : Guild) (alerted : list string)
    (allMessages : list Message) (m : Message) : bool :=
  Index.isMonitored g m && Index.isAnswered env g allMessages m
  && includes alerted (msg_id m).

(** The reaction look-ups made for the message. *)
Definition lookups (env : Index.Env) (g : Guild) (m : Message) : list (string * string) :=
  if Index.isMonitored g m
  then (fun e => (msg_id m, e)) <$> (Index.hasStaffReaction env g m).2
  else [].

(** What one channel adds to [unansweredMessages]. *)
Definition channelAlerts (env : Index.Env) (w : Index.World) (alerted : list string)
    (ch : Channel) : list Index.Alert :=
  match Index.allMessagesOf w ch with
  | None => []
  | Some msgs =>
      msgs ≫= (fun m => if queues env (Index.guild w) alerted msgs m
                         then [Index.mkAlert ch m] else [])
  end.

(** What one channel adds to [answeredMessageIds]. *)
Definition channelAnswered (env : Index.Env) (w : Index.World) (alerted : list string)
    (ch : Channel) : list string :=
  match Index.allMessagesOf w ch with
  | None => []
  | Some msgs =>
      msgs ≫= (fun m => if clears env (Index.guild w) alerted msgs m
                         then [msg_id m] else [])
  end.

(** The batches whose send resolved: those before the first rejected send. *)
Fixpoint delivered (w : Index.World) (n : nat) (batches : list (list Index.Alert))
  : list (list Index.Alert) :=
  match batches with
  | [] => []
  | batch :: rest =>
      if Index.send_resolves w n then batch :: delivered w (S n) rest else []
  end.

(** [clientRoles.size !== 0]: the handler goes on to the channel loop. *)
Definition hasClientRoles (g : Guild) : bool :=
  negb (length (filter (fun r => isClientRole r = true) (guild_roles_cache g)) =? 0)%nat.

(** The ids the run marks as alerted. *)
Definition marked (env : Index.Env) (w : Index.World) (alerted : list string) : list string :=
  if Index.channels_fetch_pm w
  then Index.messageId <$>
         concat (delivered w 0 (Index.alertBatches
                   (Index.unansweredMessages (Index.scan env w alerted))))
  else [].

(** The ids of all messages handed to the message loop of index.js. *)
Definition observedIds (w : Index.World) : list string :=
  Index.textChannels w ≫= fun ch => msg_id <$> default [] (Index.allMessagesOf w ch).

(** A message together with its channel and the page it came with. *)
Definition Job : Type := Channel * list Message * Message.

(** The messages part_000 evaluates in one channel, and in a whole run, in
    the order of evaluation. *)
Definition jobsOf (ch : Channel) : list Job :=
  match Part0.fetchMessages ch with
  | None => []
  | Some msgs => (fun m => (ch, msgs, m)) <$> msgs
  end.

Definition jobs (w : Part0.World) : list Job := Part0.textChannels w ≫= jobsOf.

(** The loop body of part_000 on one such message. *)
Definition stepJob (env : Part0.Env) (w : Part0.World) (st : Part0.State) (x : Job)
  : Part0.State :=
  let '(ch, msgs, m) := x in Part0.processMessage env w ch msgs st m.

(** The message reaches the policy part and the policy says [AlertNow],
    against the store [d]. *)
Definition alertsNow (env : Part0.Env) (w : Part0.World)
    (d : gmap string (gmap string Part0.Val)) (x : Job) : bool :=
  let '(ch, msgs, m) := x in
  Part0.isCandidate env (Part0.guild w) msgs m &&
  match Part0.decideAlert env (default ∅ (d !! Part0.keyOf ch m)) (createdTimestamp m)
          (Part0.now w) (Part0.getHours w) (Part0.getHours w) with
  | Part0.AlertNow => true
  | _ => false
  end.

(** The store key of the message. *)
Definition jobKey (x : Job) : string := let '(ch, _, m) := x in Part0.keyOf ch m.

(** The state before the channel loop: the loaded store, nothing queued. *)
Definition initState (d : gmap string (gmap string Part0.Val)) : Part0.State :=
  {| Part0.db := d; Part0.alertMessages := []; Part0.queuedKeys := [] |}.

(** The keys of all messages handed to the message loop of part_000. *)
Definition observedKeys (w : Part0.World) : list string :=
  Part0.textChannels w ≫= fun ch => Part0.keyOf ch <$> default [] (Part0.fetchMessages ch).

(** The message is not silenced and [isOld || nightCheck] holds: the policy
    part reaches the cooldown test. *)
Definition passesGate (env : Part0.Env) (existing : gmap string Part0.Val)
    (created now h1 h2 : Z) : bool :=
  let snoozedUntil := Part0.orDefault (existing !! "snoozedUntil") (Part0.VNum 0) in
  let handled := Part0.orDefault (existing !! "handled") (Part0.VBool false) in
  negb (Part0.truthy handled || (Part0.toNumber snoozedUntil >? now)) &&
  ((now - created >? Part0.waitTimeOf env) ||
   (negb (Part0.TESTING env) && Part0.isNight h1 h2 && (now - created <? 12 * 60 * 60 * 1000))).

(** The record is silenced at [now]: [handled] is true, or [snoozedUntil]
    is a later time. *)
Definition silenced (r : gmap string Part0.Val) (now : Z) : Prop :=
  r !! "handled" = Some (Part0.VBool true) \/
  exists s, r !! "snoozedUntil" = Some (Part0.VNum s) /\ now < s.

(** All messages of the pages the transport holds for a channel, in the
    order of the pages; rejected fetches carry none. *)
Definition pagesOf (replies : list (option (list Message))) : list Message :=
  concat (omap id replies).

(** The paging order of the transport: newest first. *)
Definition descending : list Message -> Prop :=
  StronglySorted (fun a b => createdTimestamp b <= createdTimestamp a).

(** The member holds the role: [member.roles.cache.has(roleId)]. *)
Definition holdsRole (mem : Member) (roleId : string) : Prop :=
  exists role, role ∈ roles_cache mem /\ role_id role = roleId.

(** The author is one index.js and part_000 monitor: not a bot, with a
    member (the one of the message, else the one [members.fetch] gives)
    that has a role whose name ends in -ext. *)
Definition externalAuthor (g : Guild) (m : Message) : Prop :=
  bot (author m) = false /\
  exists mem role,
    (member m = Some mem \/
     (member m = None /\ members_fetch g (user_id (author m)) = Some mem)) /\
    role ∈ roles_cache mem /\ endsWith (role_name role) "-ext" = true.

(** A reply index.js attributes to staff: a message of the window, in the
    same channel, strictly later, not from a bot, whose member (the one of
    the message, else the one in the member cache of the guild) holds the
    manager role. *)
Definition staffReplyInWindow (env : Index.Env) (g : Guild) (msgs : list Message)
    (m : Message) : Prop :=
  exists r mem,
    r ∈ msgs /\ channelId r = channelId m /\
    createdTimestamp m < createdTimestamp r /\ bot (author r) = false /\
    (member r = Some mem \/
     (member r = None /\ members_cache_get g (user_id (author r)) = Some mem)) /\
    holdsRole mem (Index.MANAGER_ROLE_ID env).

(** The reaction has a staff reactor index.js can find: its users can be
    fetched and one of them, not a bot, is resolved by [members.fetch] to a
    member holding the manager role. *)
Definition staffReactor (env : Index.Env) (g : Guild) (r : MessageReaction) : Prop :=
  exists users u mem,
    users_fetch r = Some users /\ u ∈ users /\ bot u = false /\
    members_fetch g (user_id u) = Some mem /\
    holdsRole mem (Index.MANAGER_ROLE_ID env).

Definition staffReactionOn (env : Index.Env) (g : Guild) (m : Message) : Prop :=
  exists r, r ∈ reactions_cache m /\ staffReactor env g r.

(** A reply part_000 attributes to staff: a message of the page, strictly
    later, whose member (the one of the message, else the one
    [members.fetch] gives) holds the staff role. *)
Definition staffReplyInPage (env : Part0.Env) (g : Guild) (msgs : list Message)
    (m : Message) : Prop :=
  exists r mem,
    r ∈ msgs /\ createdTimestamp m < createdTimestamp r /\
    (member r = Some mem \/
     (member r = None /\ members_fetch g (user_id (author r)) = Some mem)) /\
    holdsRole mem (Part0.STAFF_ROLE_ID env).

(** The number part_000 reads from a property of a record: [r.field || 0]. *)
Definition storedNumber (r : gmap string Part0.Val) (field : string) : Z :=
  Part0.toNumber (Part0.orDefault (r !! field) (Part0.VNum 0)).

(** The record is not silenced at [now]: [handled || snoozedUntil > now]
    is false. *)
Definition notSilenced (r : gmap string Part0.Val) (now : Z) : Prop :=
  Part0.truthy (Part0.orDefault (r !! "handled") (Part0.VBool false)) = false /\
  storedNumber r "snoozedUntil" <= now.

(** No threshold lies between the clock readings of two runs of part_000:
    the second reading is not earlier and within the cooldown of the first,
    and for every message of the pages neither its wait time, nor the end
    of the snooze of its stored record, nor the end of the cooldown of that
    record falls between the two. *)
Definition steadyBetween (env : Part0.Env) (w1 w2 : Part0.World)
    (d : gmap string (gmap string Part0.Val)) : Prop :=
  Part0.now w1 <= Part0.now w2 /\
  Part0.now w2 - Part0.now w1 <= Part0.cooldownOf env /\
  forall ch msgs m,
    ch ∈ Part0.textChannels w1 -> Part0.fetchMessages ch = Some msgs -> m ∈ msgs ->
    (Part0.now w1 - createdTimestamp m <= Part0.waitTimeOf env ->
     Part0.now w2 - createdTimestamp m <= Part0.waitTimeOf env) /\
    (Part0.now w1 < storedNumber (default ∅ (d !! Part0.keyOf ch m)) "snoozedUntil" ->
     Part0.now w2 < storedNumber (default ∅ (d !! Part0.keyOf ch m)) "snoozedUntil") /\
    (Part0.now w1 - storedNumber (default ∅ (d !! Part0.keyOf ch m)) "lastAlert"
       <= Part0.cooldownOf env ->
     Part0.now w2 - storedNumber (default ∅ (d !! Part0.keyOf ch m)) "lastAlert"
       <= Part0.cooldownOf env).


(** * Scenarios: one guild with a client role and a staff role, a client
    (alice) and a staff member (sam), one text channel, and the clock at
    [T0] plus some minutes. *)

Definition roleExt : Role := {| role_id := "r1"; role_name := "acme-ext" |}.
Definition roleStaff : Role := {| role_id := "staff"; role_name := "Staff" |}.
Definition clientMember : Member := {| roles_cache := [roleExt] |}.
Definition staffMember : Member := {| roles_cache := [roleStaff] |}.
Definition alice : User := {| user_id := "u1"; username := "alice"; bot := false |}.
Definition sam : User := {| user_id := "u2"; username := "sam"; bot := false |}.

Definition directory (userId : string) : option Member :=
  if String.eqb userId "u1" then Some clientMember
  else if String.eqb userId "u2" then Some staffMember
  else None.

Definition guild0 : Guild :=
  {| guild_roles_cache := [roleExt; roleStaff];
     members_fetch := directory;
     members_cache_get := directory |}.

Definition T0 : Z := 1700000000000.
Definition minutes (n : Z) : Z := n * 60 * 1000.

Definition question (i : string) (ts : Z) (reactions : list MessageReaction) : Message :=
  {| msg_id := i; channelId := "c1"; createdTimestamp := ts; author := alice;
     member := Some clientMember; reactions_cache := reactions;
     url := "https://discord.test/c1/" +:+ i; content := "help" |}.

Definition answer (i : string) (ts : Z) : Message :=
  {| msg_id := i; channelId := "c1"; createdTimestamp := ts; author := sam;
     member := Some staffMember; reactions_cache := [];
     url := "https://discord.test/c1/" +:+ i; content := "on it" |}.

Definition support (page : list Message) : Channel :=
  {| channel_id := "c1"; channel_name := "support"; isTextBased := true;
     messages_fetch := [Some page] |}.

Definition envA : Index.Env :=
  {| Index.MANAGER_ROLE_ID := "staff"; Index.PROJECT_MGMT_CHANNEL_ID := "pm" |}.

Definition envTest : Part0.Env :=
  {| Part0.TESTING := true; Part0.STAFF_ROLE_ID := "staff";
     Part0.PROJECT_MGMT_CHANNEL_ID := "pm" |}.

Definition envProd : Part0.Env :=
  {| Part0.TESTING := false; Part0.STAFF_ROLE_ID := "staff";
     Part0.PROJECT_MGMT_CHANNEL_ID := "pm" |}.

Definition worldA (page : list Message) (clock : Z) (sends : bool) : Index.World :=
  {| Index.guild := guild0; Index.channels_cache := [support page];
     Index.Date_now := fun _ => clock; Index.channels_fetch_pm := true;
     Index.send_resolves := fun _ => sends |}.

Definition worldB (page : list Message) (clock hour : Z) (sends : bool) : Part0.World :=
  {| Part0.guild := guild0; Part0.channels_cache := [support page];
     Part0.now := clock; Part0.getHours := hour; Part0.channels_fetch_pm := true;
     Part0.send_resolves := fun _ => sends |}.

Definition thumbsUp (reactor : User) : MessageReaction :=
  {| emoji := "thumbsup"; users_fetch := Some [reactor] |}.

(** A client question at [T0]: without response, with a staff reaction. *)
Definition plain : Message := question "m1" T0 [].
Definition reacted : Message := question "m1" T0 [thumbsUp sam].

(** A staff reply five minutes later, and a second client question. *)
Definition reply : Message := answer "m2" (T0 + minutes 5).
Definition later : Message := question "m2" (T0 + minutes 10) [].

(** A stored record with a snooze that has run out. *)
Definition snoozedBefore : gmap string Part0.Val :=
  {[ "lastAlert" := Part0.VNum (T0 + minutes 3);
     "snoozedUntil" := Part0.VNum (T0 + minutes 10) ]}.

(** The same guild with an empty member cache: [members.fetch] still
    resolves alice and sam. *)
Definition guildCold : Guild :=
  {| guild_roles_cache := [roleExt; roleStaff];
     members_fetch := directory;
     members_cache_get := fun _ => None |}.

(** The reply of sam as the transport delivers it without a member. *)
Definition uncachedReply : Message :=
  {| msg_id := "m2"; channelId := "c1"; createdTimestamp := T0 + minutes 5;
     author := sam; member := None; reactions_cache := [];
     url := "https://discord.test/c1/m2"; content := "on it" |}.

Definition worldCold (page : list Message) (clock : Z) : Index.World :=
  {| Index.guild := guildCold; Index.channels_cache := [support page];
     Index.Date_now := fun _ => clock; Index.channels_fetch_pm := true;
     Index.send_resolves := fun _ => true |}.

(** The question with two reactions: the thumbs-up of sam, then the eyes
    of alice. *)
Definition eyes (reactor : User) : MessageReaction :=
  {| emoji := "eyes"; users_fetch := Some [reactor] |}.
Definition reactedTwice : Message := question "m1" T0 [thumbsUp sam; eyes alice].

(** A second text channel whose fetch is rejected. *)
Definition broken : Channel :=
  {| channel_id := "c2"; channel_name := "archive"; isTextBased := true;
     messages_fetch := [None] |}.

(** The alert queued for the question [plain]. *)
Definition plainAlert : Index.Alert := Index.mkAlert (support [plain]) plain.

Ltac here :=
  vm_compute; repeat (first [apply list_elem_of_here | apply list_elem_of_further]).
Ltac nodup := apply (bool_decide_unpack _); vm_compute; exact I.

(** * Properties *)

(** ** Folds that only append *)

Section FoldAppend.
Context {S A B : Type} (f : S -> A -> S) (p : S -> list B) (g : A -> list B).
Hypothesis step : forall s a, p (f s a) = p s ++ g a.

Lemma fold_left_appends (l : list A) (s : S) :
  p (fold_left f l s) = p s ++ (l ≫= g).
Proof.
  revert s. induction l as [|a l IH]; intros s; simpl.
  - by rewrite app_nil_r.
  - rewrite IH, step. by rewrite <- app_assoc.
Qed.

End FoldAppend.

(** ** The window of index.js *)

Lemma scanBatch_recent cutoff batch messages :
  Forall (fun m => cutoff <= createdTimestamp m) messages ->
  Forall (fun m => cutoff <= createdTimestamp m) (Index.scanBatch cutoff batch messages).1.
Proof.
  revert messages. induction batch as [|msg rest IH]; intros messages Hm; simpl.
  - done.
  - destruct (createdTimestamp msg <? cutoff) eqn:Hold; simpl; [done|].
    apply IH. apply Forall_app; split; [done|].
    apply Forall_singleton. lia.
Qed.

Lemma fetchLoop_recent cutoff replies messages fetched :
  Forall (fun m => cutoff <= createdTimestamp m) messages ->
  Index.fetchLoop cutoff replies messages = Some fetched ->
  Forall (fun m => cutoff <= createdTimestamp m) fetched.
Proof.
  revert messages. induction replies as [|reply later IH]; intros messages Hm; simpl.
  - by intros [= <-].
  - destruct reply as [batch|]; [|done].
    pose proof (scanBatch_recent cutoff batch messages Hm) as Hb.
    destruct (Index.scanBatch cutoff batch messages) as [messages' returned]; simpl in Hb.
    destruct returned; [by intros [= <-]|].
    destruct (length batch <? 100)%nat; [by intros [= <-]|].
    destruct (last batch) as [lastMsg|].
    + destruct (createdTimestamp lastMsg <? cutoff); [by intros [= <-]|].
      by apply IH.
    + by apply IH.
Qed.

Lemma insertByTimestamp_perm m l : Index.insertByTimestamp m l ≡ₚ m :: l.
Proof.
  induction l as [|x rest IH]; simpl; [done|].
  destruct (createdTimestamp m <=? createdTimestamp x); [done|].
  rewrite IH. apply Permutation_swap.
Qed.

Lemma sortByTimestamp_perm l : Index.sortByTimestamp l ≡ₚ l.
Proof.
  induction l as [|x rest IH]; simpl; [done|].
  unfold Index.sortByTimestamp in *. rewrite insertByTimestamp_perm. by rewrite IH.
Qed.

Lemma insertByTimestamp_ascending m l :
  ascending l -> ascending (Index.insertByTimestamp m l).
Proof.
  unfold ascending. induction l as [|x rest IH]; intros Hs; simpl.
  - repeat constructor.
  - apply StronglySorted_inv in Hs as [Hrest Hx].
    destruct (createdTimestamp m <=? createdTimestamp x) eqn:Hle.
    + constructor; [by constructor|].
      constructor; [lia|].
      eapply Forall_impl; [exact Hx|]. simpl. intros y Hy. lia.
    + constructor; [by apply IH|].
      rewrite insertByTimestamp_perm. constructor; [lia|done].
Qed.

Lemma sortByTimestamp_ascending l : ascending (Index.sortByTimestamp l).
Proof.
  induction l as [|x rest IH]; simpl; [constructor|].
  by apply insertByTimestamp_ascending.
Qed.

(** ** The scan of index.js, message by message *)

Lemma processMessage_unmonitored env g alerted ch msgs st m :
  Index.isMonitored g m = false ->
  Index.processMessage env g alerted ch msgs st m = st.
Proof.
  unfold Index.isMonitored, Index.processMessage.
  destruct (bot (author m)); [done|].
  destruct (resolveMember g m) as [mem|]; [|done].
  by intros ->.
Qed.

Lemma processMessage_monitored env g alerted ch msgs st m :
  Index.isMonitored g m = true ->
  Index.processMessage env g alerted ch msgs st m =
  {| Index.unansweredMessages :=
       if negb (Index.isAnswered env g msgs m) && negb (includes alerted (msg_id m))
       then Index.unansweredMessages st ++ [Index.mkAlert ch m]
       else Index.unansweredMessages st;
     Index.answeredMessageIds :=
       if Index.isAnswered env g msgs m && includes alerted (msg_id m)
       then Index.answeredMessageIds st ++ [msg_id m]
       else Index.answeredMessageIds st;
     Index.reactionFetches :=
       Index.reactionFetches st ++
       ((fun e => (msg_id m, e)) <$> (Index.hasStaffReaction env g m).2) |}.
Proof.
  unfold Index.isMonitored, Index.processMessage, Index.isAnswered.
  destruct (bot (author m)); [done|].
  destruct (resolveMember g m) as [mem|]; [|done].
  intros ->. simpl.
  by destruct (Index.hasStaffReaction env g m) as [hasReaction fetched].
Qed.

Lemma processMessage_unanswered env g alerted ch msgs st m :
  Index.unansweredMessages (Index.processMessage env g alerted ch msgs st m) =
  Index.unansweredMessages st ++
  (if queues env g alerted msgs m then [Index.mkAlert ch m] else []).
Proof.
  unfold queues. destruct (Index.isMonitored g m) eqn:Hmon.
  - rewrite processMessage_monitored by done. simpl.
    destruct (negb _ && negb _); [done|by rewrite app_nil_r].
  - rewrite processMessage_unmonitored by done. by rewrite app_nil_r.
Qed.

Lemma processMessage_answered env g alerted ch msgs st m :
  Index.answeredMessageIds (Index.processMessage env g alerted ch msgs st m) =
  Index.answeredMessageIds st ++
  (if clears env g alerted msgs m then [msg_id m] else []).
Proof.
  unfold clears. destruct (Index.isMonitored g m) eqn:Hmon.
  - rewrite processMessage_monitored by done. simpl.
    destruct (_ && includes _ _); [done|by rewrite app_nil_r].
  - rewrite processMessage_unmonitored by done. by rewrite app_nil_r.
Qed.

Lemma processMessage_lookups env g alerted ch msgs st m :
  Index.reactionFetches (Index.processMessage env g alerted ch msgs st m) =
  Index.reactionFetches st ++ lookups env g m.
Proof.
  unfold lookups. destruct (Index.isMonitored g m) eqn:Hmon.
  - by rewrite processMessage_monitored by done.
  - rewrite processMessage_unmonitored by done. by rewrite app_nil_r.
Qed.

Lemma scanChannel_unanswered env w alerted st ch :
  Index.unansweredMessages (Index.scanChannel env w alerted st ch) =
  Index.unansweredMessages st ++ channelAlerts env w alerted ch.
Proof.
  unfold Index.scanChannel, channelAlerts.
  destruct (Index.allMessagesOf w ch) as [msgs|]; [|by rewrite app_nil_r].
  apply fold_left_appends. intros s a. apply processMessage_unanswered.
Qed.

Lemma scanChannel_answered env w alerted st ch :
  Index.answeredMessageIds (Index.scanChannel env w alerted st ch) =
  Index.answeredMessageIds st ++ channelAnswered env w alerted ch.
Proof.
  unfold Index.scanChannel, channelAnswered.
  destruct (Index.allMessagesOf w ch) as [msgs|]; [|by rewrite app_nil_r].
  apply fold_left_appends. intros s a. apply processMessage_answered.
Qed.

Lemma scan_unanswered env w alerted :
  Index.unansweredMessages (Index.scan env w alerted) =
  Index.textChannels w ≫= channelAlerts env w alerted.
Proof.
  unfold Index.scan.
  rewrite (fold_left_appends _ Index.unansweredMessages (channelAlerts env w alerted)).
  - done.
  - intros s a. apply scanChannel_unanswered.
Qed.

Lemma scan_answered env w alerted :
  Index.answeredMessageIds (Index.scan env w alerted) =
  Index.textChannels w ≫= channelAnswered env w alerted.
Proof.
  unfold Index.scan.
  rewrite (fold_left_appends _ Index.answeredMessageIds (channelAnswered env w alerted)).
  - done.
  - intros s a. apply scanChannel_answered.
Qed.

(** Where a queued alert comes from. *)
Lemma elem_of_scan_unanswered env w alerted a :
  a ∈ Index.unansweredMessages (Index.scan env w alerted) <->
  exists ch msgs m,
    ch ∈ Index.textChannels w /\ Index.allMessagesOf w ch = Some msgs /\ m ∈ msgs /\
    queues env (Index.guild w) alerted msgs m = true /\ a = Index.mkAlert ch m.
Proof.
  rewrite scan_unanswered, list_elem_of_bind. split.
  - intros (ch & Ha & Hch). unfold channelAlerts in Ha.
    destruct (Index.allMessagesOf w ch) as [msgs|] eqn:Hw; [|by apply elem_of_nil in Ha].
    apply list_elem_of_bind in Ha as (m & Ha & Hm).
    destruct (queues _ _ _ _ m) eqn:Hq; [|by apply elem_of_nil in Ha].
    apply list_elem_of_singleton in Ha. by exists ch, msgs, m.
  - intros (ch & msgs & m & Hch & Hw & Hm & Hq & ->).
    exists ch. split; [|done]. unfold channelAlerts. rewrite Hw.
    apply list_elem_of_bind. exists m. split; [|done]. rewrite Hq. by left.
Qed.

(** Where an id of [answeredMessageIds] comes from. *)
Lemma elem_of_scan_answered env w alerted i :
  i ∈ Index.answeredMessageIds (Index.scan env w alerted) <->
  exists ch msgs m,
    ch ∈ Index.textChannels w /\ Index.allMessagesOf w ch = Some msgs /\ m ∈ msgs /\
    clears env (Index.guild w) alerted msgs m = true /\ i = msg_id m.
Proof.
  rewrite scan_answered, list_elem_of_bind. split.
  - intros (ch & Ha & Hch). unfold channelAnswered in Ha.
    destruct (Index.allMessagesOf w ch) as [msgs|] eqn:Hw; [|by apply elem_of_nil in Ha].
    apply list_elem_of_bind in Ha as (m & Ha & Hm).
    destruct (clears _ _ _ _ m) eqn:Hq; [|by apply elem_of_nil in Ha].
    apply list_elem_of_singleton in Ha. by exists ch, msgs, m.
  - intros (ch & msgs & m & Hch & Hw & Hm & Hq & ->).
    exists ch. split; [|done]. unfold channelAnswered. rewrite Hw.
    apply list_elem_of_bind. exists m. split; [|done]. rewrite Hq. by left.
Qed.

(** ** The dispatch of index.js *)

Lemma slices_concat fuel l : (length l <= fuel)%nat -> concat (Index.slices fuel l) = l.
Proof.
  revert l. induction fuel as [|fuel IH]; intros l Hlen; simpl.
  - destruct l; [done|simpl in Hlen; lia].
  - destruct l as [|x l']; [done|].
    change (concat (take 5 (x :: l') :: Index.slices fuel (drop 5 (x :: l'))))
      with (take 5 (x :: l') ++ concat (Index.slices fuel (drop 5 (x :: l')))).
    rewrite IH.
    + apply take_drop.
    + rewrite length_drop. simpl in *. lia.
Qed.

Lemma alertBatches_concat l : concat (Index.alertBatches l) = l.
Proof. unfold Index.alertBatches. by apply slices_concat. Qed.

Lemma sendBatches_delivered env w n batches alerted sent :
  Index.sendBatches env w n batches alerted sent =
  (alerted ++ (Index.messageId <$> concat (delivered w n batches)),
   sent ++ (Index.batchText env <$> delivered w n batches)).
Proof.
  revert n alerted sent. induction batches as [|batch rest IH]; intros n alerted sent; simpl.
  - by rewrite !app_nil_r.
  - destruct (Index.send_resolves w n); simpl.
    + rewrite IH. rewrite fmap_app. by rewrite <- !app_assoc.
    + by rewrite !app_nil_r.
Qed.

Lemma delivered_all w n batches :
  (forall k, Index.send_resolves w k = true) -> delivered w n batches = batches.
Proof.
  intros Hall. revert n. induction batches as [|batch rest IH]; intros n; simpl; [done|].
  by rewrite Hall, IH.
Qed.

Lemma delivered_sublist w n batches : concat (delivered w n batches) ⊆ concat batches.
Proof.
  revert n. induction batches as [|batch rest IH]; intros n; simpl; [done|].
  destruct (Index.send_resolves w n); simpl.
  - intros x Hx. apply elem_of_app in Hx as [Hx|Hx]; apply elem_of_app; [by left|].
    right. by apply (IH (S n)).
  - intros x Hx. by apply elem_of_nil in Hx.
Qed.

(** ** The run of index.js *)

Lemma filter_all {A} (P : A -> Prop) `{forall x, Decision (P x)} (l : list A) :
  (forall x, P x) -> filter P l = l.
Proof.
  intros HP. induction l as [|x l IH]; [done|].
  rewrite filter_cons_True by done. by rewrite IH.
Qed.

Lemma run_early env w alerted :
  hasClientRoles (Index.guild w) = false ->
  Index.run env w alerted =
  {| Index.saved := alerted; Index.queued := []; Index.sent_texts := [];
     Index.exit_code := 0 |}.
Proof.
  unfold hasClientRoles, Index.run. intros H.
  apply negb_false_iff in H. by rewrite H.
Qed.

Lemma run_saved env w alerted :
  hasClientRoles (Index.guild w) = true ->
  Index.saved (Index.run env w alerted) =
  filter (fun i => i ∉ Index.answeredMessageIds (Index.scan env w alerted)) alerted
  ++ marked env w alerted.
Proof.
  unfold hasClientRoles, Index.run, marked. intros H.
  apply negb_true_iff in H. rewrite H.
  set (st := Index.scan env w alerted).
  assert ((if (0 <? length (Index.answeredMessageIds st))%nat
           then filter (fun i => includes (Index.answeredMessageIds st) i = false) alerted
           else alerted)
          = filter (fun i => i ∉ Index.answeredMessageIds st) alerted) as ->.
  { destruct (Index.answeredMessageIds st) as [|i0 ids] eqn:Hids; simpl.
    - symmetry. apply filter_all. intros i. apply not_elem_of_nil.
    - apply list_filter_iff. intros i. unfold includes.
      by rewrite bool_decide_eq_false. }
  destruct (Index.unansweredMessages st) as [|a0 U] eqn:HU.
  - simpl. destruct (Index.channels_fetch_pm w); by rewrite app_nil_r.
  - change (0 <? length (a0 :: U))%nat with true. cbv iota.
    destruct (Index.channels_fetch_pm w); [|by rewrite app_nil_r].
    by rewrite sendBatches_delivered.
Qed.

Lemma run_queued env w alerted :
  hasClientRoles (Index.guild w) = true ->
  Index.queued (Index.run env w alerted) =
  Index.unansweredMessages (Index.scan env w alerted).
Proof.
  unfold hasClientRoles, Index.run. intros H.
  apply negb_true_iff in H. rewrite H.
  set (st := Index.scan env w alerted).
  destruct (Index.unansweredMessages st) as [|a0 U] eqn:HU; [done|].
  change (0 <? length (a0 :: U))%nat with true. cbv iota.
  destruct (Index.channels_fetch_pm w); [|done].
  by rewrite sendBatches_delivered.
Qed.

Lemma run_queued_scan env w alerted a :
  a ∈ Index.queued (Index.run env w alerted) ->
  a ∈ Index.unansweredMessages (Index.scan env w alerted).
Proof.
  destruct (hasClientRoles (Index.guild w)) eqn:H.
  - by rewrite run_queued.
  - rewrite run_early by done. simpl. intros Ha. by apply elem_of_nil in Ha.
Qed.

Lemma marked_queued env w alerted i :
  i ∈ marked env w alerted ->
  exists a, a ∈ Index.unansweredMessages (Index.scan env w alerted) /\ i = Index.messageId a.
Proof.
  unfold marked. destruct (Index.channels_fetch_pm w); [|by intros ?%elem_of_nil].
  intros (a & -> & Ha)%list_elem_of_fmap. exists a. split; [|done].
  apply delivered_sublist in Ha. by rewrite alertBatches_concat in Ha.
Qed.

(** ** Distinct keys across the observed windows *)

Lemma NoDup_fmap_eq {A K} (f : A -> K) (l : list A) x y :
  NoDup (f <$> l) -> x ∈ l -> y ∈ l -> f x = f y -> x = y.
Proof.
  induction l as [|a l IH]; intros Hnd Hx Hy Hf.
  - by apply elem_of_nil in Hx.
  - rewrite fmap_cons in Hnd. apply NoDup_cons in Hnd as [Ha Hnd].
    apply elem_of_cons in Hx as [->|Hx]; apply elem_of_cons in Hy as [->|Hy].
    + done.
    + exfalso. apply Ha. rewrite Hf. by apply list_elem_of_fmap_2.
    + exfalso. apply Ha. rewrite <- Hf. by apply list_elem_of_fmap_2.
    + by apply IH.
Qed.

Lemma NoDup_bind_key {A B K} (F : A -> list B) (k : A -> B -> K) (L : list A) a a' x x' :
  NoDup (L ≫= fun c => k c <$> F c) ->
  a ∈ L -> a' ∈ L -> x ∈ F a -> x' ∈ F a' -> k a x = k a' x' ->
  a = a' /\ x = x'.
Proof.
  induction L as [|c L IH]; intros Hnd Ha Ha' Hx Hx' Hk.
  - by apply elem_of_nil in Ha.
  - change ((c :: L) ≫= (fun c => k c <$> F c))
      with ((k c <$> F c) ++ (L ≫= fun c => k c <$> F c)) in Hnd.
    apply NoDup_app in Hnd as (Hhead & Hdisj & Htail).
    assert (forall b y, b ∈ L -> y ∈ F b -> k b y ∈ L ≫= (fun c => k c <$> F c)) as Hin.
    { intros b y Hb Hy. apply list_elem_of_bind. exists b. split; [|done].
      by apply list_elem_of_fmap_2. }
    apply elem_of_cons in Ha as [->|Ha]; apply elem_of_cons in Ha' as [->|Ha'].
    + split; [done|]. by apply (NoDup_fmap_eq (k c) (F c)).
    + exfalso. apply (Hdisj (k c x)); [by apply list_elem_of_fmap_2|].
      rewrite Hk. by apply Hin.
    + exfalso. apply (Hdisj (k c x')); [by apply list_elem_of_fmap_2|].
      rewrite <- Hk. by apply Hin.
    + by apply IH.
Qed.

Lemma observed_same_id w ch ch' msgs msgs' m m' :
  NoDup (observedIds w) ->
  ch ∈ Index.textChannels w -> ch' ∈ Index.textChannels w ->
  Index.allMessagesOf w ch = Some msgs -> Index.allMessagesOf w ch' = Some msgs' ->
  m ∈ msgs -> m' ∈ msgs' -> msg_id m = msg_id m' ->
  ch = ch' /\ msgs = msgs' /\ m = m'.
Proof.
  intros Hnd Hch Hch' Hw Hw' Hm Hm' Hid.
  destruct (NoDup_bind_key (fun c => default [] (Index.allMessagesOf w c))
              (fun _ x => msg_id x) (Index.textChannels w) ch ch' m m')
    as [-> ->]; try done.
  - by rewrite Hw.
  - by rewrite Hw'.
  - split; [done|]. split; [congruence|done].
Qed.

(** ** index.js: answered messages, alerted messages *)

Lemma queues_true env g alerted msgs m :
  queues env g alerted msgs m = true <->
  Index.isMonitored g m = true /\ Index.isAnswered env g msgs m = false /\
  msg_id m ∉ alerted.
Proof.
  unfold queues, includes.
  rewrite !andb_true_iff, !negb_true_iff, bool_decide_eq_false. tauto.
Qed.

Lemma clears_true env g alerted msgs m :
  clears env g alerted msgs m = true <->
  Index.isMonitored g m = true /\ Index.isAnswered env g msgs m = true /\
  msg_id m ∈ alerted.
Proof.
  unfold clears, includes.
  rewrite !andb_true_iff, bool_decide_eq_true. tauto.
Qed.

(** An alert is only queued for a message that is not yet in
    [db.alertedMessages]. *)
Lemma queued_not_alerted env w alerted a :
  a ∈ Index.queued (Index.run env w alerted) -> Index.messageId a ∉ alerted.
Proof.
  intros Ha%run_queued_scan.
  apply elem_of_scan_unanswered in Ha as (ch & msgs & m & _ & _ & _ & Hq & ->).
  apply queues_true in Hq. simpl. tauto.
Qed.

(** With distinct ids, no alert is queued for an answered message. *)
Lemma answered_not_queued env w alerted ch msgs m a :
  NoDup (observedIds w) ->
  ch ∈ Index.textChannels w -> Index.allMessagesOf w ch = Some msgs -> m ∈ msgs ->
  Index.isAnswered env (Index.guild w) msgs m = true ->
  a ∈ Index.unansweredMessages (Index.scan env w alerted) ->
  Index.messageId a <> msg_id m.
Proof.
  intros Hnd Hch Hw Hm Hans Ha Hid.
  apply elem_of_scan_unanswered in Ha as (ch' & msgs' & m' & Hch' & Hw' & Hm' & Hq & ->).
  simpl in Hid.
  destruct (observed_same_id w ch' ch msgs' msgs m' m) as (-> & -> & ->); try done.
  apply queues_true in Hq. destruct Hq as (_ & Hq & _). congruence.
Qed.

(** ** part_000: the scan as one loop over the evaluated messages *)

Lemma fold_left_fmap_list {S A B} (f : S -> B -> S) (g : A -> B) (l : list A) (s : S) :
  fold_left f (g <$> l) s = fold_left (fun s a => f s (g a)) l s.
Proof. revert s. induction l as [|a l IH]; intros s; simpl; [done|]. apply IH. Qed.

Lemma fold_left_bind_list {S A B} (f : S -> B -> S) (g : A -> list B) (l : list A) (s : S) :
  fold_left f (l ≫= g) s = fold_left (fun s a => fold_left f (g a) s) l s.
Proof.
  revert s. induction l as [|a l IH]; intros s; [done|].
  change ((a :: l) ≫= g) with (g a ++ (l ≫= g)).
  rewrite fold_left_app. simpl. apply IH.
Qed.

Lemma scanChannel_jobs env w st ch :
  Part0.scanChannel env w st ch = fold_left (stepJob env w) (jobsOf ch) st.
Proof.
  unfold Part0.scanChannel, jobsOf.
  destruct (Part0.fetchMessages ch) as [msgs|]; [|done].
  by rewrite fold_left_fmap_list.
Qed.

Lemma scan_jobs env w d :
  Part0.scan env w d = fold_left (stepJob env w) (jobs w) (initState d).
Proof.
  unfold Part0.scan, jobs, initState. rewrite fold_left_bind_list.
  generalize {| Part0.db := d; Part0.alertMessages := []; Part0.queuedKeys := [] |}.
  induction (Part0.textChannels w) as [|ch l IH]; intros s; simpl; [done|].
  rewrite scanChannel_jobs. apply IH.
Qed.

Lemma elem_of_jobs w x :
  x ∈ jobs w <->
  exists ch msgs m, ch ∈ Part0.textChannels w /\ Part0.fetchMessages ch = Some msgs /\
                    m ∈ msgs /\ x = (ch, msgs, m).
Proof.
  unfold jobs. rewrite list_elem_of_bind. split.
  - intros (ch & Hx & Hch). unfold jobsOf in Hx.
    destruct (Part0.fetchMessages ch) as [msgs|] eqn:Hf; [|by apply elem_of_nil in Hx].
    apply list_elem_of_fmap in Hx as (m & -> & Hm). by exists ch, msgs, m.
  - intros (ch & msgs & m & Hch & Hf & Hm & ->). exists ch. split; [|done].
    unfold jobsOf. rewrite Hf. by apply list_elem_of_fmap_2.
Qed.

Lemma stepJob_spec env w st x :
  stepJob env w st x =
  if alertsNow env w (Part0.db st) x
  then {| Part0.db := <[ jobKey x := Part0.alertRecord (Part0.now w) ]> (Part0.db st);
          Part0.alertMessages :=
            Part0.alertMessages st ++ [Part0.alertText env x.1.1 x.2];
          Part0.queuedKeys := Part0.queuedKeys st ++ [jobKey x] |}
  else st.
Proof.
  destruct x as [[ch msgs] m].
  unfold stepJob, alertsNow, Part0.processMessage, Part0.isCandidate, jobKey. simpl.
  destruct (bot (author m)); [done|].
  destruct (resolveMember (Part0.guild w) m) as [mem|]; [|done].
  destruct (hasClientRole mem); simpl; [|done].
  destruct (Part0.staffReplied env (Part0.guild w) msgs m); simpl; [done|].
  by destruct (Part0.decideAlert _ _ _ _ _ _).
Qed.

Lemma fold_left_invariant {S A} (f : S -> A -> S) (P : S -> Prop) (l : list A) (s : S) :
  P s -> (forall s a, a ∈ l -> P s -> P (f s a)) -> P (fold_left f l s).
Proof.
  revert s. induction l as [|a l IH]; intros s Hs Hstep; simpl; [done|].
  apply IH.
  - apply Hstep; [by left|done].
  - intros s' a' Ha'. apply Hstep. by right.
Qed.

(** ** part_000: the record written with an alert *)

Lemma alertRecord_lastAlert now :
  Part0.alertRecord now !! "lastAlert" = Some (Part0.VNum now).
Proof. unfold Part0.alertRecord. by rewrite lookup_insert_eq. Qed.

Lemma alertRecord_handled now :
  Part0.alertRecord now !! "handled" = Some (Part0.VBool false).
Proof.
  unfold Part0.alertRecord. rewrite lookup_insert_ne by done.
  by rewrite lookup_singleton_eq.
Qed.

Lemma alertRecord_other now field :
  field <> "lastAlert" -> field <> "handled" -> Part0.alertRecord now !! field = None.
Proof.
  intros H1 H2. unfold Part0.alertRecord.
  rewrite lookup_insert_ne by done. by rewrite lookup_singleton_ne.
Qed.

Lemma toNumber_orDefault_num z :
  Part0.toNumber (Part0.orDefault (Some (Part0.VNum z)) (Part0.VNum 0)) = z.
Proof.
  simpl. destruct (z =? 0) eqn:Hz; simpl; [|done].
  apply Z.eqb_eq in Hz. by subst.
Qed.

Lemma cooldownOf_pos env : 0 < Part0.cooldownOf env.
Proof. unfold Part0.cooldownOf. by destruct (Part0.TESTING env). Qed.

(** Against the record just written, the policy never says [AlertNow] at
    the same clock reading. *)
Lemma decideAlert_fresh env now created h1 h2 :
  Part0.decideAlert env (Part0.alertRecord now) created now h1 h2 <> Part0.AlertNow.
Proof.
  unfold Part0.decideAlert.
  rewrite alertRecord_lastAlert, alertRecord_handled, alertRecord_other by done.
  rewrite toNumber_orDefault_num.
  pose proof (cooldownOf_pos env) as Hc.
  destruct (_ || _); [done|].
  destruct (_ || _); [|done].
  destruct (now - now >? Part0.cooldownOf env) eqn:Hgt; [|done].
  apply Z.gtb_lt in Hgt. lia.
Qed.

(** ** part_000: the run *)

Lemma run0_early env w d :
  hasClientRoles (Part0.guild w) = false ->
  Part0.run env w d = {| Part0.saved := d; Part0.queued := []; Part0.sent_texts := [] |}.
Proof.
  unfold hasClientRoles, Part0.run. intros H.
  apply negb_false_iff in H. by rewrite H.
Qed.

Lemma run0_saved env w d :
  hasClientRoles (Part0.guild w) = true ->
  Part0.saved (Part0.run env w d) = Part0.db (Part0.scan env w d).
Proof.
  unfold hasClientRoles, Part0.run. intros H.
  apply negb_true_iff in H. by rewrite H.
Qed.

Lemma run0_queued env w d :
  hasClientRoles (Part0.guild w) = true ->
  Part0.queued (Part0.run env w d) = Part0.queuedKeys (Part0.scan env w d).
Proof.
  unfold hasClientRoles, Part0.run. intros H.
  apply negb_true_iff in H. by rewrite H.
Qed.

(** A property of the initial store and empty queue that every evaluated
    message preserves holds of what the run saves and queues. *)
Lemma run0_invariant env w d (P : gmap string (gmap string Part0.Val) -> list string -> Prop) :
  P d [] ->
  (forall st x, x ∈ jobs w -> P (Part0.db st) (Part0.queuedKeys st) ->
                P (Part0.db (stepJob env w st x)) (Part0.queuedKeys (stepJob env w st x))) ->
  P (Part0.saved (Part0.run env w d)) (Part0.queued (Part0.run env w d)).
Proof.
  intros Hinit Hstep.
  destruct (hasClientRoles (Part0.guild w)) eqn:Hroles.
  - rewrite run0_saved, run0_queued by done. rewrite scan_jobs.
    apply (fold_left_invariant _ (fun st => P (Part0.db st) (Part0.queuedKeys st))); done.
  - by rewrite run0_early.
Qed.

(** A queued key has the fresh record; any other key keeps its record. *)
Lemma run0_records env w d key :
  (key ∈ Part0.queued (Part0.run env w d) ->
   Part0.saved (Part0.run env w d) !! key = Some (Part0.alertRecord (Part0.now w))) /\
  (key ∉ Part0.queued (Part0.run env w d) ->
   Part0.saved (Part0.run env w d) !! key = d !! key).
Proof.
  apply (run0_invariant env w d (fun db q =>
    (key ∈ q -> db !! key = Some (Part0.alertRecord (Part0.now w))) /\
    (key ∉ q -> db !! key = d !! key))).
  - split; [by intros ?%elem_of_nil|done].
  - intros st x _ [Hin Hout]. rewrite stepJob_spec.
    destruct (alertsNow env w (Part0.db st) x); [|done]. simpl.
    destruct (decide (jobKey x = key)) as [->|Hne].
    + rewrite lookup_insert_eq. split; [done|].
      intros Hnot. exfalso. apply Hnot. apply elem_of_app. right. by left.
    + rewrite lookup_insert_ne by done. split.
      * intros [Hq|Hq%list_elem_of_singleton]%elem_of_app; [by apply Hin|congruence].
      * intros Hnot. apply Hout. intros Hq. apply Hnot. apply elem_of_app. by left.
Qed.

(** A queued key is the key of an evaluated message that passed the author
    filter and had no staff reply. *)
Lemma run0_queued_origin env w d key :
  key ∈ Part0.queued (Part0.run env w d) ->
  exists ch msgs m,
    ch ∈ Part0.textChannels w /\ Part0.fetchMessages ch = Some msgs /\ m ∈ msgs /\
    Part0.isCandidate env (Part0.guild w) msgs m = true /\ key = Part0.keyOf ch m.
Proof.
  apply (run0_invariant env w d (fun _ q => key ∈ q -> _)).
  - by intros ?%elem_of_nil.
  - intros st x Hx IH. rewrite stepJob_spec.
    destruct (alertsNow env w (Part0.db st) x) eqn:Hal; [|done]. simpl.
    intros [Hq|Hq%list_elem_of_singleton]%elem_of_app; [by apply IH|].
    apply elem_of_jobs in Hx as (ch & msgs & m & Hch & Hf & Hm & ->).
    exists ch, msgs, m. simpl in Hal, Hq.
    apply andb_true_iff in Hal as [Hcand _]. done.
Qed.

Lemma observed_same_key w ch ch' msgs msgs' m m' :
  NoDup (observedKeys w) ->
  ch ∈ Part0.textChannels w -> ch' ∈ Part0.textChannels w ->
  Part0.fetchMessages ch = Some msgs -> Part0.fetchMessages ch' = Some msgs' ->
  m ∈ msgs -> m' ∈ msgs' -> Part0.keyOf ch m = Part0.keyOf ch' m' ->
  ch = ch' /\ msgs = msgs' /\ m = m'.
Proof.
  intros Hnd Hch Hch' Hw Hw' Hm Hm' Hid.
  destruct (NoDup_bind_key (fun c => default [] (Part0.fetchMessages c))
              Part0.keyOf (Part0.textChannels w) ch ch' m m')
    as [-> ->]; try done.
  - by rewrite Hw.
  - by rewrite Hw'.
  - split; [done|]. split; [congruence|done].
Qed.

Lemma isCandidate_replied env g msgs m :
  Part0.staffReplied env g msgs m = true -> Part0.isCandidate env g msgs m = false.
Proof.
  intros H. unfold Part0.isCandidate. rewrite H.
  destruct (bot (author m)); [done|].
  destruct (resolveMember g m) as [mem|]; [|done].
  by destruct (hasClientRole mem).
Qed.

(** ** part_000: a second run at the same clock reading *)

Lemma alertsNow_fresh env w d x :
  d !! jobKey x = Some (Part0.alertRecord (Part0.now w)) -> alertsNow env w d x = false.
Proof.
  destruct x as [[ch msgs] m]. unfold alertsNow, jobKey. intros ->. simpl.
  pose proof (decideAlert_fresh env (Part0.now w) (createdTimestamp m)
                (Part0.getHours w) (Part0.getHours w)) as Hfresh.
  destruct (Part0.decideAlert _ _ _ _ _ _); try done.
  all: by rewrite andb_false_r.
Qed.

Lemma alertsNow_same_record env w d d' x :
  d' !! jobKey x = d !! jobKey x -> alertsNow env w d' x = alertsNow env w d x.
Proof. destruct x as [[ch msgs] m]. unfold alertsNow, jobKey. by intros ->. Qed.

Lemma stepJob_quiet_self env w st x :
  alertsNow env w (Part0.db (stepJob env w st x)) x = false.
Proof.
  rewrite stepJob_spec. destruct (alertsNow env w (Part0.db st) x) eqn:Hal; [|done].
  simpl. apply alertsNow_fresh. by rewrite lookup_insert_eq.
Qed.

Lemma stepJob_quiet_other env w st x y :
  alertsNow env w (Part0.db st) y = false ->
  alertsNow env w (Part0.db (stepJob env w st x)) y = false.
Proof.
  intros Hy. rewrite stepJob_spec.
  destruct (alertsNow env w (Part0.db st) x); [|done]. simpl.
  destruct (decide (jobKey x = jobKey y)) as [Heq|Hne].
  - apply alertsNow_fresh. rewrite Heq. by rewrite lookup_insert_eq.
  - rewrite <- Hy. apply alertsNow_same_record. by rewrite lookup_insert_ne.
Qed.

Lemma fold_quiet_other env w l st y :
  alertsNow env w (Part0.db st) y = false ->
  alertsNow env w (Part0.db (fold_left (stepJob env w) l st)) y = false.
Proof.
  intros Hy. apply (fold_left_invariant _ (fun s => alertsNow env w (Part0.db s) y = false));
    [done|].
  intros s a _. apply stepJob_quiet_other.
Qed.

Lemma fold_quiet_all env w l st x :
  x ∈ l -> alertsNow env w (Part0.db (fold_left (stepJob env w) l st)) x = false.
Proof.
  revert st. induction l as [|a l IH]; intros st Hx; [by apply elem_of_nil in Hx|].
  simpl. apply elem_of_cons in Hx as [->|Hx].
  - apply fold_quiet_other. apply stepJob_quiet_self.
  - by apply IH.
Qed.

Lemma fold_quiet_idle env w l st :
  (forall x, x ∈ l -> alertsNow env w (Part0.db st) x = false) ->
  fold_left (stepJob env w) l st = st.
Proof.
  induction l as [|a l IH]; intros Hq; simpl; [done|].
  rewrite stepJob_spec, Hq by (by left). apply IH. intros x Hx. apply Hq. by right.
Qed.

(** ** The response tests, read off the data *)

Lemma staffAmong_true env g users :
  Index.staffAmong env g users = true <->
  exists u mem, u ∈ users /\ bot u = false /\ members_fetch g (user_id u) = Some mem /\
                roles_has mem (Index.MANAGER_ROLE_ID env) = true.
Proof.
  unfold Index.staffAmong. rewrite existsb_exists. split.
  - intros (u & Hin%list_elem_of_In & Hu).
    destruct (bot u) eqn:Hbot; [done|].
    destruct (members_fetch g (user_id u)) as [mem|] eqn:Hmem; [|done].
    by exists u, mem.
  - intros (u & mem & Hin & Hbot & Hmem & Hrole). exists u.
    split; [by apply list_elem_of_In|]. by rewrite Hbot, Hmem.
Qed.

Lemma reactionLoop_true env g reactions :
  (Index.reactionLoop env g reactions).1 = true <->
  exists r users, r ∈ reactions /\ users_fetch r = Some users /\
                  Index.staffAmong env g users = true.
Proof.
  induction reactions as [|r rest IH]; simpl.
  - split; [done|]. intros (r & users & Hin & _). by apply elem_of_nil in Hin.
  - assert ((exists r' users, r' ∈ rest /\ users_fetch r' = Some users /\
                              Index.staffAmong env g users = true) ->
            exists r' users, r' ∈ r :: rest /\ users_fetch r' = Some users /\
                             Index.staffAmong env g users = true) as Hlift.
    { intros (r' & users & Hin & H). exists r', users. split; [by right|done]. }
    destruct (users_fetch r) as [users|] eqn:Hfetch.
    + destruct (Index.staffAmong env g users) eqn:Hstaff; simpl.
      * split; [|done]. intros _. exists r, users. split; [by left|done].
      * destruct (Index.reactionLoop env g rest) as [b fetched]. simpl in *.
        rewrite IH. split; [apply Hlift|].
        intros (r' & users' & [->|Hin]%elem_of_cons & Hf & Hs).
        -- congruence.
        -- by exists r', users'.
    + destruct (Index.reactionLoop env g rest) as [b fetched]. simpl in *.
      rewrite IH. split; [apply Hlift|].
      intros (r' & users' & [->|Hin]%elem_of_cons & Hf & Hs).
      * congruence.
      * by exists r', users'.
Qed.

Lemma hasStaffReply_true env g msgs m :
  Index.hasStaffReply env g msgs m = true <->
  exists r, r ∈ msgs /\ Index.isStaffReply env g m r = true.
Proof.
  unfold Index.hasStaffReply. rewrite existsb_exists.
  split; intros (r & Hin & Hr); exists r; split; try done; by apply list_elem_of_In.
Qed.

Lemma staffReplied_true env g msgs m :
  Part0.staffReplied env g msgs m = true <->
  exists r, r ∈ msgs /\ Part0.isStaffReply env g m r = true.
Proof.
  unfold Part0.staffReplied, Part0.staffReplies.
  induction msgs as [|x rest IH]; simpl.
  - split; [done|]. intros (r & Hin & _). by apply elem_of_nil in Hin.
  - destruct (Part0.isStaffReply env g m x) eqn:Hx; simpl.
    + split; [|done]. intros _. exists x. split; [by left|done].
    + rewrite IH. split.
      * intros (r & Hin & Hr). exists r. split; [by right|done].
      * intros (r & [->|Hin]%elem_of_cons & Hr); [congruence|by exists r].
Qed.

Lemma roles_has_true mem roleId : roles_has mem roleId = true <-> holdsRole mem roleId.
Proof.
  unfold roles_has, holdsRole. rewrite existsb_exists. split.
  - intros (role & Hin%list_elem_of_In & Heq%String.eqb_eq). by exists role.
  - intros (role & Hin & Heq). exists role. split; [by apply list_elem_of_In|].
    by apply String.eqb_eq.
Qed.

Lemma resolveMember_some g m mem :
  resolveMember g m = Some mem <->
  member m = Some mem \/ (member m = None /\ members_fetch g (user_id (author m)) = Some mem).
Proof.
  unfold resolveMember. destruct (member m) as [mem'|].
  - split; [by left|]. by intros [?|[? _]].
  - split; [by right|]. by intros [?|[_ ?]].
Qed.

Lemma isMonitored_true g m : Index.isMonitored g m = true <-> externalAuthor g m.
Proof.
  unfold Index.isMonitored, externalAuthor, hasClientRole, isClientRole. split.
  - destruct (bot (author m)); [done|].
    destruct (resolveMember g m) as [mem|] eqn:Hmem; [|done].
    rewrite existsb_exists. intros (role & Hin%list_elem_of_In & Hext).
    split; [done|]. exists mem, role. by apply resolveMember_some in Hmem.
  - intros (-> & mem & role & Hmem%resolveMember_some & Hin & Hext). rewrite Hmem.
    apply existsb_exists. exists role. split; [by apply list_elem_of_In|done].
Qed.

Lemma isCandidate_true env g msgs m :
  Part0.isCandidate env g msgs m = true <->
  Index.isMonitored g m = true /\ Part0.staffReplied env g msgs m = false.
Proof.
  unfold Part0.isCandidate, Index.isMonitored.
  destruct (bot (author m)); [by split; [|intros []]|].
  destruct (resolveMember g m) as [mem|]; [|by split; [|intros []]].
  destruct (hasClientRole mem); simpl; [|by split; [|intros []]].
  rewrite negb_true_iff. tauto.
Qed.

Lemma hasStaffReply_iff env g msgs m :
  Index.hasStaffReply env g msgs m = true <-> staffReplyInWindow env g msgs m.
Proof.
  rewrite hasStaffReply_true. unfold staffReplyInWindow, Index.isStaffReply. split.
  - intros (r & Hin & Hr).
    destruct (String.eqb (channelId r) (channelId m)) eqn:Hch; simpl in Hr; [|done].
    destruct (createdTimestamp r <=? createdTimestamp m) eqn:Hts; [done|].
    destruct (bot (author r)) eqn:Hbot; [done|].
    apply String.eqb_eq in Hch. apply Z.leb_gt in Hts.
    destruct (member r) as [mem|] eqn:Hmem.
    + exists r, mem. repeat split; try done; [by left|by apply roles_has_true].
    + destruct (members_cache_get g (user_id (author r))) as [mem|] eqn:Hcache; [|done].
      exists r, mem. repeat split; try done; [by right|by apply roles_has_true].
  - intros (r & mem & Hin & Hch & Hts & Hbot & Hmem & Hrole%roles_has_true).
    exists r. split; [done|].
    apply String.eqb_eq in Hch. rewrite Hch, Hbot. simpl.
    assert ((createdTimestamp r <=? createdTimestamp m) = false) as ->
      by (apply Z.leb_gt; lia).
    by destruct Hmem as [->|[-> ->]].
Qed.

Lemma staffReplied_iff env g msgs m :
  Part0.staffReplied env g msgs m = true <-> staffReplyInPage env g msgs m.
Proof.
  rewrite staffReplied_true. unfold staffReplyInPage, Part0.isStaffReply. split.
  - intros (r & Hin & Hr).
    destruct (createdTimestamp r <=? createdTimestamp m) eqn:Hts; [done|].
    apply Z.leb_gt in Hts.
    destruct (resolveMember g r) as [mem|] eqn:Hmem; [|done].
    exists r, mem. apply resolveMember_some in Hmem. by apply roles_has_true in Hr.
  - intros (r & mem & Hin & Hts & Hmem%resolveMember_some & Hrole%roles_has_true).
    exists r. split; [done|]. rewrite Hmem.
    by assert ((createdTimestamp r <=? createdTimestamp m) = false) as ->
      by (apply Z.leb_gt; lia).
Qed.

(** The test made on one reaction, and what it means. *)
Lemma staffReactor_iff env g r :
  staffReactor env g r <->
  exists users, users_fetch r = Some users /\ Index.staffAmong env g users = true.
Proof.
  unfold staffReactor. split.
  - intros (users & u & mem & Hf & Hu & Hbot & Hmem & Hrole). exists users.
    split; [done|]. apply staffAmong_true. exists u, mem. by rewrite roles_has_true.
  - intros (users & Hf & (u & mem & Hu & Hbot & Hmem & Hrole)%staffAmong_true).
    exists users, u, mem. by rewrite <- roles_has_true.
Qed.

Lemma hasStaffReaction_iff env g m :
  (Index.hasStaffReaction env g m).1 = true <-> staffReactionOn env g m.
Proof.
  unfold Index.hasStaffReaction, staffReactionOn. rewrite reactionLoop_true. split.
  - intros (r & users & Hin & Hf & Hs). exists r. split; [done|].
    apply staffReactor_iff. by exists users.
  - intros (r & Hin & (users & Hf & Hs)%staffReactor_iff). by exists r, users.
Qed.

Lemma isAnswered_iff env g msgs m :
  Index.isAnswered env g msgs m = true <->
  staffReplyInWindow env g msgs m \/ staffReactionOn env g m.
Proof.
  unfold Index.isAnswered.
  by rewrite orb_true_iff, hasStaffReply_iff, hasStaffReaction_iff.
Qed.

(** The look-ups of the reaction loop: all reactions when none has a staff
    reactor, else those up to and including the first that has one. *)
Lemma reactionLoop_no_staff env g reactions :
  (forall r, r ∈ reactions -> ~ staffReactor env g r) ->
  Index.reactionLoop env g reactions = (false, emoji <$> reactions).
Proof.
  induction reactions as [|r rest IH]; intros Hnone; simpl; [done|].
  assert (forall users, users_fetch r = Some users -> Index.staffAmong env g users = false)
    as Hr.
  { intros users Hf. apply not_true_is_false. intros Hs.
    apply (Hnone r); [by left|]. apply staffReactor_iff. by exists users. }
  rewrite IH by (intros r' Hr'; apply Hnone; by right).
  destruct (users_fetch r) as [users|]; [|done]. by rewrite (Hr users).
Qed.

Lemma reactionLoop_first_staff env g before r after :
  (forall r', r' ∈ before -> ~ staffReactor env g r') ->
  staffReactor env g r ->
  Index.reactionLoop env g (before ++ r :: after) = (true, emoji <$> (before ++ [r])).
Proof.
  intros Hnone (users & Hf & Hs)%staffReactor_iff.
  induction before as [|r0 before IH]; simpl.
  - by rewrite Hf, Hs.
  - assert (forall users0, users_fetch r0 = Some users0 ->
                           Index.staffAmong env g users0 = false) as Hr0.
    { intros users0 Hf0. apply not_true_is_false. intros Hs0.
      apply (Hnone r0); [by left|]. apply staffReactor_iff. by exists users0. }
    rewrite IH by (intros r' Hr'; apply Hnone; by right).
    destruct (users_fetch r0) as [users0|]; [|done]. by rewrite (Hr0 users0).
Qed.

(** * The claims *)

(** ** C1: no alert for an answered message *)

(** C1 (as amended).  In index.js a message of the window is never queued,
    and the run adds no entry for it to [alertedMessages], when the window
    holds a strictly later message in the same channel, not from a bot,
    whose member (the one of the message, else the one in the member cache)
    holds the manager role, or when one of its reactions has a non-bot user
    that [members.fetch] resolves to a member holding the manager role.  In
    part_000 only a later reply counts: a message with a strictly later
    message in the page whose member (the one of the message, else the one
    [members.fetch] gives) holds the staff role is never queued and its
    record is left as it was.  Message ids (keys) are distinct across the
    windows. *)
Theorem C1_answered_never_alerts :
  (forall env w alerted ch msgs m,
     NoDup (observedIds w) ->
     ch ∈ Index.textChannels w -> Index.allMessagesOf w ch = Some msgs -> m ∈ msgs ->
     (staffReplyInWindow env (Index.guild w) msgs m \/
      staffReactionOn env (Index.guild w) m) ->
     (forall a, a ∈ Index.queued (Index.run env w alerted) ->
                Index.messageId a <> msg_id m) /\
     (msg_id m ∈ Index.saved (Index.run env w alerted) -> msg_id m ∈ alerted)) /\
  (forall env w d ch msgs m,
     NoDup (observedKeys w) ->
     ch ∈ Part0.textChannels w -> Part0.fetchMessages ch = Some msgs -> m ∈ msgs ->
     staffReplyInPage env (Part0.guild w) msgs m ->
     (Part0.keyOf ch m ∉ Part0.queued (Part0.run env w d)) /\
     Part0.saved (Part0.run env w d) !! Part0.keyOf ch m = d !! Part0.keyOf ch m).
Proof.
  split.
  - intros env w alerted ch msgs m Hnd Hch Hw Hm Hans%isAnswered_iff.
    assert (forall a, a ∈ Index.unansweredMessages (Index.scan env w alerted) ->
                      Index.messageId a <> msg_id m) as Hq.
    { intros a Ha. by apply (answered_not_queued env w alerted ch msgs m a). }
    split.
    + intros a Ha. apply Hq. by apply run_queued_scan.
    + destruct (hasClientRoles (Index.guild w)) eqn:Hroles.
      * rewrite run_saved by done.
        intros [Hold|Hnew]%elem_of_app.
        -- by apply list_elem_of_filter in Hold as [_ Hold].
        -- apply marked_queued in Hnew as (a & Ha & Hid).
           exfalso. by apply (Hq a).
      * by rewrite run_early.
  - intros env w d ch msgs m Hnd Hch Hf Hm Hrep%staffReplied_iff.
    assert (Part0.keyOf ch m ∉ Part0.queued (Part0.run env w d)) as Hnot.
    { intros Hq. apply run0_queued_origin in Hq
        as (ch' & msgs' & m' & Hch' & Hf' & Hm' & Hcand & Hkey).
      destruct (observed_same_key w ch ch' msgs msgs' m m') as (-> & -> & ->); try done.
      rewrite isCandidate_replied in Hcand; done. }
    split; [done|]. by apply run0_records.
Qed.

(** ** C4: the cooldown test *)

Lemma decideAlert_gate env existing created now h1 h2 :
  Part0.decideAlert env existing created now h1 h2 =
  if passesGate env existing created now h1 h2 then
    if now - Part0.toNumber (Part0.orDefault (existing !! "lastAlert") (Part0.VNum 0))
       >? Part0.cooldownOf env
    then Part0.AlertNow else Part0.Suppress
  else Part0.NoAction.
Proof.
  unfold Part0.decideAlert, passesGate.
  destruct (_ || (_ >? now)); simpl; [done|].
  by destruct (_ || _).
Qed.


(** ** C5: the reaction look-up *)

Lemma reactionLoop_head env g r rest :
  exists more, (Index.reactionLoop env g (r :: rest)).2 = emoji r :: more.
Proof.
  simpl. destruct (users_fetch r) as [users|].
  - destruct (Index.staffAmong env g users); [by exists []|].
    destruct (Index.reactionLoop env g rest) as [b fetched]. by exists fetched.
  - destruct (Index.reactionLoop env g rest) as [b fetched]. by exists fetched.
Qed.

Lemma reactionLoop_prefix env g reactions :
  (Index.reactionLoop env g reactions).2 `prefix_of` (emoji <$> reactions).
Proof.
  induction reactions as [|r rest IH]; simpl; [done|].
  destruct (users_fetch r) as [users|].
  - destruct (Index.staffAmong env g users); simpl.
    + apply prefix_cons, prefix_nil.
    + destruct (Index.reactionLoop env g rest) as [b fetched]. by apply prefix_cons.
  - destruct (Index.reactionLoop env g rest) as [b fetched]. by apply prefix_cons.
Qed.

(** C5 (as amended).  For every message that passes the author filter, the
    reaction look-up runs whatever the window holds, hence whatever the
    reply-after test gave.  When no reaction of the message has a staff
    reactor, the users of every reaction are fetched, in order; otherwise
    the users of the reactions up to and including the first one with a
    staff reactor are fetched and no later one.  In particular the first
    reaction is always fetched.  The message is answered exactly when it
    has a staff reply in the window or a staff reaction. *)
Theorem C5_reaction_lookup_always_runs :
  forall env g alerted ch msgs st m,
    externalAuthor g m ->
    ((forall r, r ∈ reactions_cache m -> ~ staffReactor env g r) ->
     Index.reactionFetches (Index.processMessage env g alerted ch msgs st m) =
       Index.reactionFetches st ++
       ((fun r => (msg_id m, emoji r)) <$> reactions_cache m)) /\
    (forall before r after,
       reactions_cache m = before ++ r :: after ->
       (forall r', r' ∈ before -> ~ staffReactor env g r') ->
       staffReactor env g r ->
       Index.reactionFetches (Index.processMessage env g alerted ch msgs st m) =
         Index.reactionFetches st ++
         ((fun r => (msg_id m, emoji r)) <$> (before ++ [r]))) /\
    (forall r rest, reactions_cache m = r :: rest ->
       (msg_id m, emoji r) ∈
         Index.reactionFetches (Index.processMessage env g alerted ch msgs st m)) /\
    (Index.isAnswered env g msgs m = true <->
     staffReplyInWindow env g msgs m \/ staffReactionOn env g m).
Proof.
  intros env g alerted ch msgs st m Hmon%isMonitored_true.
  rewrite processMessage_lookups. unfold lookups. rewrite Hmon.
  unfold Index.hasStaffReaction. split; [|split; [|split]].
  - intros Hnone. rewrite reactionLoop_no_staff by done. simpl.
    by rewrite <- list_fmap_compose.
  - intros before r after Hr Hnone Hstaff.
    rewrite Hr, reactionLoop_first_staff by done. simpl.
    by rewrite <- list_fmap_compose.
  - intros r rest Hr. rewrite Hr.
    destruct (reactionLoop_head env g r rest) as [more ->].
    apply elem_of_app. right. rewrite fmap_cons. by left.
  - apply isAnswered_iff.
Qed.

(** ** C6: the conversation window *)

Lemma fold_stepJob_queue env w l st :
  exists ks, Part0.queuedKeys (fold_left (stepJob env w) l st) = Part0.queuedKeys st ++ ks /\
             ks `sublist_of` (jobKey <$> l).
Proof.
  revert st. induction l as [|x l IH]; intros st; simpl.
  - exists []. by rewrite app_nil_r.
  - destruct (IH (stepJob env w st x)) as (ks & -> & Hsub).
    rewrite stepJob_spec. destruct (alertsNow env w (Part0.db st) x); simpl.
    + exists (jobKey x :: ks). rewrite <- app_assoc. split; [done|].
      by apply sublist_skip.
    + exists ks. split; [done|]. by apply sublist_cons.
Qed.

(** C6 (as amended).  In index.js the window of a channel holds no message
    older than the clock reading minus three hours and is handed to the
    message loop in ascending order of timestamp.  part_000 has no lookback
    and no sort: it evaluates the page of [messages.fetch({ limit: 20 })] in
    the order the transport gave it, so the keys it queues for a channel
    follow the order of that page. *)
Theorem C6_window_recent_and_ascending :
  (forall w ch allMessages,
     Index.allMessagesOf w ch = Some allMessages ->
     Forall (fun m => Index.Date_now w (channel_id ch) - Index.timeWindow
                      <= createdTimestamp m) allMessages /\
     ascending allMessages) /\
  (forall env w st ch msgs,
     Part0.fetchMessages ch = Some msgs ->
     exists ks,
       Part0.queuedKeys (Part0.scanChannel env w st ch) = Part0.queuedKeys st ++ ks /\
       ks `sublist_of` (Part0.keyOf ch <$> msgs)).
Proof.
  split.
  - intros w ch allMessages Hw. unfold Index.allMessagesOf in Hw.
    destruct (Index.fetchRecentMessages _ ch) as [fetched|] eqn:Hf; [|done].
    simpl in Hw. injection Hw as <-. split.
    + rewrite sortByTimestamp_perm.
      unfold Index.fetchRecentMessages in Hf.
      by apply (fetchLoop_recent _ (messages_fetch ch) []).
    + apply sortByTimestamp_ascending.
  - intros env w st ch msgs Hf. rewrite scanChannel_jobs.
    destruct (fold_stepJob_queue env w (jobsOf ch) st) as (ks & Hks & Hsub).
    exists ks. split; [done|].
    unfold jobsOf in Hsub. rewrite Hf in Hsub.
    rewrite <- list_fmap_compose in Hsub. done.
Qed.

(** ** C7: clearing an alerted message once it is answered *)

Lemma replied_key_untouched env w d ch msgs m :
  NoDup (observedKeys w) ->
  ch ∈ Part0.textChannels w -> Part0.fetchMessages ch = Some msgs -> m ∈ msgs ->
  Part0.staffReplied env (Part0.guild w) msgs m = true ->
  Part0.saved (Part0.run env w d) !! Part0.keyOf ch m = d !! Part0.keyOf ch m /\
  Part0.keyOf ch m ∉ Part0.queued (Part0.run env w d).
Proof.
  intros Hnd Hch Hf Hm Hrep.
  assert (Part0.keyOf ch m ∉ Part0.queued (Part0.run env w d)) as Hnot.
  { intros Hq. apply run0_queued_origin in Hq
      as (ch' & msgs' & m' & Hch' & Hf' & Hm' & Hcand & Hkey).
    destruct (observed_same_key w ch ch' msgs msgs' m m') as (-> & -> & ->); try done.
    rewrite isCandidate_replied in Hcand; done. }
  split; [|done]. by apply run0_records.
Qed.

(** C7 (as amended).  In index.js, when an alerted message is still in the
    window of a scanned channel, its author passes the filter (not a bot,
    a member with a role ending in -ext) and the window holds a reply that
    index.js attributes to staff or the message has a staff reaction, the
    run removes its id from [alertedMessages] and queues no alert under
    that id.  In part_000 no record is ever removed: every key of the
    loaded store is in the saved store; a message with a later staff reply
    leaves the store and the queue exactly as they were, and with distinct
    keys the run saves its record unchanged and queues nothing for it. *)
Theorem C7_answered_message_is_cleared :
  (forall env w alerted ch msgs m,
     hasClientRoles (Index.guild w) = true ->
     ch ∈ Index.textChannels w -> Index.allMessagesOf w ch = Some msgs -> m ∈ msgs ->
     externalAuthor (Index.guild w) m ->
     (staffReplyInWindow env (Index.guild w) msgs m \/
      staffReactionOn env (Index.guild w) m) ->
     msg_id m ∈ alerted ->
     (msg_id m ∉ Index.saved (Index.run env w alerted)) /\
     (forall a, a ∈ Index.queued (Index.run env w alerted) ->
                Index.messageId a <> msg_id m)) /\
  (forall env w d,
     (forall key, is_Some (d !! key) ->
                  is_Some (Part0.saved (Part0.run env w d) !! key)) /\
     (forall ch msgs st m,
        staffReplyInPage env (Part0.guild w) msgs m ->
        Part0.processMessage env w ch msgs st m = st) /\
     (forall ch msgs m,
        NoDup (observedKeys w) ->
        ch ∈ Part0.textChannels w -> Part0.fetchMessages ch = Some msgs -> m ∈ msgs ->
        staffReplyInPage env (Part0.guild w) msgs m ->
        Part0.saved (Part0.run env w d) !! Part0.keyOf ch m = d !! Part0.keyOf ch m /\
        (Part0.keyOf ch m ∉ Part0.queued (Part0.run env w d)))).
Proof.
  split.
  - intros env w alerted ch msgs m Hroles Hch Hw Hm Hmon%isMonitored_true
      Hans%isAnswered_iff Hin.
    assert (forall a, a ∈ Index.queued (Index.run env w alerted) ->
                      Index.messageId a <> msg_id m) as Hq.
    { intros a Ha Hid. apply queued_not_alerted in Ha. congruence. }
    split; [|done].
    rewrite run_saved by done. intros [Hold|Hnew]%elem_of_app.
    + apply list_elem_of_filter in Hold as [Hnot _]. apply Hnot.
      apply elem_of_scan_answered. exists ch, msgs, m.
      repeat split; try done. by apply clears_true.
    + apply marked_queued in Hnew as (a & Ha & Hid).
      apply (Hq a); [|done]. by rewrite run_queued.
  - intros env w d. split; [|split].
    + intros key Hsome. destruct (run0_records env w d key) as [Hin Hout].
      destruct (decide (key ∈ Part0.queued (Part0.run env w d))) as [Hq|Hq].
      * by rewrite Hin.
      * by rewrite Hout.
    + intros ch msgs st m Hrep%staffReplied_iff.
      unfold Part0.processMessage. rewrite Hrep.
      destruct (bot (author m)); [done|].
      destruct (resolveMember (Part0.guild w) m) as [mem|]; [|done].
      by destruct (hasClientRole mem).
    + intros ch msgs m Hnd Hch Hf Hm Hrep%staffReplied_iff.
      by apply (replied_key_untouched env w d ch msgs m).
Qed.

(** ** C8: handled and snoozed records *)

Lemma decideAlert_silenced env r created now h1 h2 :
  silenced r now -> Part0.decideAlert env r created now h1 h2 = Part0.NoAction.
Proof.
  intros [Hh|(s & Hs & Hlt)]; unfold Part0.decideAlert.
  - by rewrite Hh.
  - rewrite Hs, toNumber_orDefault_num.
    assert ((s >? now) = true) as -> by (apply Z.gtb_lt; lia).
    by rewrite orb_true_r.
Qed.

(** C8.  When the stored record of a key has [handled = true] or a
    [snoozedUntil] later than now, the decision is [NoAction] for every
    message age and hour, the run queues no alert under that key, and the
    record is saved unchanged (so the same holds for the next run). *)
Theorem C8_silenced_key_never_alerts :
  forall env w d key r,
    d !! key = Some r -> silenced r (Part0.now w) ->
    (forall created h1 h2,
       Part0.decideAlert env r created (Part0.now w) h1 h2 = Part0.NoAction) /\
    (key ∉ Part0.queued (Part0.run env w d)) /\
    Part0.saved (Part0.run env w d) !! key = Some r.
Proof.
  intros env w d key r Hr Hsil.
  split; [intros; by apply decideAlert_silenced|].
  assert (key ∉ Part0.queued (Part0.run env w d)) as Hnot.
  { apply (run0_invariant env w d (fun db q => db !! key = Some r /\ key ∉ q)).
    - split; [done|apply not_elem_of_nil].
    - intros st x _ [Hdb Hq]. rewrite stepJob_spec.
      destruct (alertsNow env w (Part0.db st) x) eqn:Hal; [|done]. simpl.
      assert (jobKey x <> key) as Hne.
      { intros Heq. destruct x as [[ch msgs] m]. unfold alertsNow, jobKey in *.
        rewrite Heq, Hdb in Hal. simpl in Hal.
        rewrite decideAlert_silenced in Hal by done. by rewrite andb_false_r in Hal. }
      rewrite lookup_insert_ne by done. split; [done|].
      intros [Hin|Hin%list_elem_of_singleton]%elem_of_app; [by apply Hq|congruence]. }
  split; [done|].
  destruct (run0_records env w d key) as [_ Hsame]. by rewrite Hsame.
Qed.

(** ** C9: a second run over the same observation *)

Lemma scan_same_observation env w w' alerted :
  Index.guild w' = Index.guild w ->
  Index.channels_cache w' = Index.channels_cache w ->
  Index.Date_now w' = Index.Date_now w ->
  Index.scan env w' alerted = Index.scan env w alerted.
Proof. destruct w, w'. simpl. by intros -> -> ->. Qed.

Lemma observedIds_same_observation w w' :
  Index.guild w' = Index.guild w ->
  Index.channels_cache w' = Index.channels_cache w ->
  Index.Date_now w' = Index.Date_now w ->
  observedIds w' = observedIds w.
Proof. destruct w, w'. simpl. by intros -> -> ->. Qed.

Lemma run_idle env w alerted :
  Index.unansweredMessages (Index.scan env w alerted) = [] ->
  Index.queued (Index.run env w alerted) = [] /\
  Index.sent_texts (Index.run env w alerted) = [].
Proof.
  intros HU. unfold Index.run.
  destruct (length _ =? 0)%nat; [done|]. by rewrite HU.
Qed.

Lemma scan0_same_observation env w w' d :
  Part0.guild w' = Part0.guild w ->
  Part0.channels_cache w' = Part0.channels_cache w ->
  Part0.now w' = Part0.now w ->
  Part0.getHours w' = Part0.getHours w ->
  Part0.scan env w' d = Part0.scan env w d.
Proof. destruct w, w'. simpl. by intros -> -> -> ->. Qed.

Lemma scan0_quiet_after env w d x :
  x ∈ jobs w -> alertsNow env w (Part0.db (Part0.scan env w d)) x = false.
Proof. intros Hx. rewrite scan_jobs. by apply fold_quiet_all. Qed.

Lemma scan0_second env w d :
  Part0.scan env w (Part0.db (Part0.scan env w d)) =
  initState (Part0.db (Part0.scan env w d)).
Proof.
  rewrite (scan_jobs env w (Part0.db (Part0.scan env w d))).
  apply fold_quiet_idle. intros x Hx. simpl. by apply scan0_quiet_after.
Qed.

Lemma decideAlert_within_cooldown env t created now h1 h2 :
  now - t <= Part0.cooldownOf env ->
  Part0.decideAlert env (Part0.alertRecord t) created now h1 h2 <> Part0.AlertNow.
Proof.
  intros Hcool. unfold Part0.decideAlert.
  rewrite alertRecord_lastAlert, alertRecord_handled, alertRecord_other by done.
  rewrite toNumber_orDefault_num.
  destruct (_ || _); [done|].
  destruct (_ || _); [|done].
  destruct (now - t >? Part0.cooldownOf env) eqn:Hgt; [|done].
  apply Z.gtb_lt in Hgt. lia.
Qed.

Lemma fold_left_same_on {S A} (f f' : S -> A -> S) (l : list A) (s : S) :
  (forall s a, a ∈ l -> f s a = f' s a) -> fold_left f l s = fold_left f' l s.
Proof.
  revert s. induction l as [|a l IH]; intros s Hsame; simpl; [done|].
  rewrite Hsame by (by left). apply IH. intros s' a' Ha'. apply Hsame. by right.
Qed.

Lemma scan_same_windows env w w' alerted :
  Index.guild w' = Index.guild w ->
  Index.channels_cache w' = Index.channels_cache w ->
  (forall ch, ch ∈ Index.textChannels w ->
              Index.allMessagesOf w' ch = Index.allMessagesOf w ch) ->
  Index.scan env w' alerted = Index.scan env w alerted.
Proof.
  intros Hg Hc Hwin. unfold Index.scan, Index.textChannels. rewrite Hc.
  apply fold_left_same_on. intros st ch Hch.
  unfold Index.scanChannel. by rewrite Hwin, Hg.
Qed.

(** Between two steady clock readings no decision turns into [AlertNow]. *)
Lemma decideAlert_steady env r created now1 now2 h1 h2 :
  now1 <= now2 ->
  (now1 - created <= Part0.waitTimeOf env -> now2 - created <= Part0.waitTimeOf env) ->
  (now1 < storedNumber r "snoozedUntil" -> now2 < storedNumber r "snoozedUntil") ->
  (now1 - storedNumber r "lastAlert" <= Part0.cooldownOf env ->
   now2 - storedNumber r "lastAlert" <= Part0.cooldownOf env) ->
  Part0.decideAlert env r created now2 h1 h2 = Part0.AlertNow ->
  Part0.decideAlert env r created now1 h1 h2 = Part0.AlertNow.
Proof.
  unfold storedNumber. intros Hle Hwait Hsnooze Hcool. rewrite !decideAlert_gate.
  destruct (passesGate env r created now2 h1 h2) eqn:G2; [|done].
  destruct (now2 - _ >? Part0.cooldownOf env) eqn:C2; [|done]. intros _.
  apply Z.gtb_lt in C2.
  assert ((now1 - Part0.toNumber (Part0.orDefault (r !! "lastAlert") (Part0.VNum 0))
           >? Part0.cooldownOf env) = true) as -> by (apply Z.gtb_lt; lia).
  assert (passesGate env r created now1 h1 h2 = true) as ->; [|done].
  unfold passesGate in *.
  apply andb_true_iff in G2 as [Hns Hgate].
  apply negb_true_iff, orb_false_iff in Hns as [Hhandled Hs].
  rewrite Z.gtb_ltb in Hs. apply Z.ltb_ge in Hs.
  apply andb_true_iff. split.
  - apply negb_true_iff, orb_false_iff. split; [done|].
    rewrite Z.gtb_ltb. apply Z.ltb_ge. lia.
  - apply orb_true_iff. apply orb_true_iff in Hgate as [Hold|Hnight].
    + left. apply Z.gtb_lt in Hold. apply Z.gtb_lt. lia.
    + right. apply andb_true_iff in Hnight as [Hn Hyoung].
      apply andb_true_iff. split; [done|].
      apply Z.ltb_lt in Hyoung. apply Z.ltb_lt. lia.
Qed.

Lemma fold_queues_alerting env w d0 l st x :
  x ∈ l ->
  alertsNow env w d0 x = true ->
  jobKey x ∈ Part0.queuedKeys st \/ Part0.db st !! jobKey x = d0 !! jobKey x ->
  jobKey x ∈ Part0.queuedKeys (fold_left (stepJob env w) l st).
Proof.
  intros Hx Hfirst.
  assert (forall l' st', jobKey x ∈ Part0.queuedKeys st' ->
            jobKey x ∈ Part0.queuedKeys (fold_left (stepJob env w) l' st')) as Hkeep.
  { intros l' st' Hin. destruct (fold_stepJob_queue env w l' st') as (ks & -> & _).
    apply elem_of_app. by left. }
  revert st. induction l as [|a l IH]; intros st Hst;
    [by apply elem_of_nil in Hx|].
  simpl. destruct Hst as [Hin|Hsame].
  { apply Hkeep. rewrite stepJob_spec.
    destruct (alertsNow env w (Part0.db st) a); [|done]. simpl.
    apply elem_of_app. by left. }
  apply elem_of_cons in Hx as [<-|Hx].
  - apply Hkeep. rewrite stepJob_spec.
    rewrite (alertsNow_same_record env w d0 (Part0.db st) x) by done.
    rewrite Hfirst. simpl. apply elem_of_app. right. by left.
  - apply IH; [done|]. rewrite stepJob_spec.
    destruct (alertsNow env w (Part0.db st) a); [|by right]. simpl.
    destruct (decide (jobKey a = jobKey x)) as [Heq|Hne].
    + left. apply elem_of_app. right. rewrite Heq. by left.
    + right. by rewrite lookup_insert_ne.
Qed.

(** A message whose key the run did not queue did not alert against the
    loaded store. *)
Lemma unqueued_job_was_quiet env w d x :
  hasClientRoles (Part0.guild w) = true ->
  x ∈ jobs w -> jobKey x ∉ Part0.queued (Part0.run env w d) ->
  alertsNow env w d x = false.
Proof.
  intros Hroles Hx Hnot. apply not_true_is_false. intros Hal. apply Hnot.
  rewrite run0_queued by done. rewrite scan_jobs.
  apply (fold_queues_alerting env w d (jobs w) (initState d) x); [done|done|by right].
Qed.

Lemma alertsNow_recent_record env w d x t :
  d !! jobKey x = Some (Part0.alertRecord t) ->
  Part0.now w - t <= Part0.cooldownOf env ->
  alertsNow env w d x = false.
Proof.
  destruct x as [[ch msgs] m]. unfold alertsNow, jobKey. intros -> Hcool. simpl.
  pose proof (decideAlert_within_cooldown env t (createdTimestamp m) (Part0.now w)
                (Part0.getHours w) (Part0.getHours w) Hcool) as Hno.
  destruct (Part0.decideAlert _ _ _ _ _ _); try done.
  all: by rewrite andb_false_r.
Qed.

Lemma alertsNow_steady env w w' d x :
  Part0.guild w' = Part0.guild w -> Part0.getHours w' = Part0.getHours w ->
  x ∈ jobs w -> steadyBetween env w w' d ->
  alertsNow env w d x = false -> alertsNow env w' d x = false.
Proof.
  intros Hg Hh Hx (Hle & _ & Hsteady) Hquiet.
  apply elem_of_jobs in Hx as (ch & msgs & m & Hch & Hf & Hm & ->).
  destruct (Hsteady ch msgs m Hch Hf Hm) as (Hwait & Hsnooze & Hcool).
  unfold alertsNow in *. rewrite Hg, Hh.
  destruct (Part0.isCandidate env (Part0.guild w) msgs m); [|done]. simpl in *.
  destruct (Part0.decideAlert env (default ∅ (d !! Part0.keyOf ch m)) (createdTimestamp m)
              (Part0.now w') (Part0.getHours w) (Part0.getHours w)) eqn:Hdec; try done.
  apply (decideAlert_steady env _ _ (Part0.now w)) in Hdec; try done.
  by rewrite Hdec in Hquiet.
Qed.

(** C9 (as amended).  A second run over the same observed messages, started
    from what the first run saved, queues and sends nothing, provided that
    in index.js message ids are distinct across the windows and every send
    of the first run resolved (a batch whose send was rejected stays
    unmarked and is queued again), and that in part_000 the two runs fall
    in the same hour, the second clock reading is not earlier than the
    first and within the cooldown of it, and no wait time of a message, end
    of a snooze or end of a cooldown of a stored record falls between the
    two readings; part_000 then saves the store unchanged. *)
Theorem C9_second_run_is_silent :
  (forall env w w' alerted,
     NoDup (observedIds w) ->
     Index.channels_fetch_pm w = true ->
     (forall n, Index.send_resolves w n = true) ->
     Index.guild w' = Index.guild w ->
     Index.channels_cache w' = Index.channels_cache w ->
     (forall ch, ch ∈ Index.textChannels w ->
                 Index.allMessagesOf w' ch = Index.allMessagesOf w ch) ->
     Index.queued (Index.run env w' (Index.saved (Index.run env w alerted))) = [] /\
     Index.sent_texts (Index.run env w' (Index.saved (Index.run env w alerted))) = []) /\
  (forall env w w' d,
     Part0.guild w' = Part0.guild w ->
     Part0.channels_cache w' = Part0.channels_cache w ->
     Part0.getHours w' = Part0.getHours w ->
     steadyBetween env w w' d ->
     Part0.queued (Part0.run env w' (Part0.saved (Part0.run env w d))) = [] /\
     Part0.sent_texts (Part0.run env w' (Part0.saved (Part0.run env w d))) = [] /\
     Part0.saved (Part0.run env w' (Part0.saved (Part0.run env w d))) =
       Part0.saved (Part0.run env w d)).
Proof.
  split.
  - intros env w w' alerted Hnd Hpm Hsend Hg Hc Hwin.
    destruct (hasClientRoles (Index.guild w')) eqn:Hroles;
      [|by rewrite run_early].
    apply run_idle. rewrite (scan_same_windows env w w') by done.
    rewrite Hg in Hroles. rewrite run_saved by done.
    apply elem_of_nil_inv. intros a Ha.
    apply elem_of_scan_unanswered in Ha as (ch & msgs & m & Hch & Hw & Hm & Hq & _).
    apply queues_true in Hq as (Hmon & Hans & Hnot).
    apply Hnot. apply elem_of_app.
    destruct (decide (msg_id m ∈ alerted)) as [Hin|Hout].
    + left. apply list_elem_of_filter. split; [|done].
      intros (ch' & msgs' & m' & Hch' & Hw' & Hm' & Hcl & Hid)%elem_of_scan_answered.
      apply clears_true in Hcl as (_ & Hans' & _).
      destruct (observed_same_id w ch ch' msgs msgs' m m') as (-> & -> & ->); try done.
      congruence.
    + right. unfold marked. rewrite Hpm, delivered_all, alertBatches_concat by done.
      apply (list_elem_of_fmap_2 Index.messageId _ (Index.mkAlert ch m)).
      apply elem_of_scan_unanswered. exists ch, msgs, m.
      repeat split; try done. by apply queues_true.
  - intros env w w' d Hg Hc Hh Hsteady.
    destruct (hasClientRoles (Part0.guild w')) eqn:Hroles;
      [|by rewrite run0_early].
    assert (hasClientRoles (Part0.guild w) = true) as Hroles1 by (by rewrite <- Hg).
    assert (jobs w' = jobs w) as Hjobs.
    { unfold jobs, Part0.textChannels. by rewrite Hc. }
    assert (Part0.scan env w' (Part0.saved (Part0.run env w d)) =
            initState (Part0.saved (Part0.run env w d))) as Hidle.
    { rewrite scan_jobs. apply fold_quiet_idle. rewrite Hjobs. intros x Hx. simpl.
      destruct (run0_records env w d (jobKey x)) as [Hin Hout].
      destruct (decide (jobKey x ∈ Part0.queued (Part0.run env w d))) as [Hq|Hq].
      - apply (alertsNow_recent_record env w' _ x (Part0.now w)); [by apply Hin|].
        by destruct Hsteady as (_ & Hcool & _).
      - rewrite (alertsNow_same_record env w' d) by (by apply Hout).
        apply (alertsNow_steady env w w' d x); try done.
        by apply unqueued_job_was_quiet. }
    rewrite (run0_queued env w' _ Hroles), (run0_saved env w' _ Hroles), Hidle.
    split; [done|]. split; [|done].
    unfold Part0.run. unfold hasClientRoles in Hroles.
    apply negb_true_iff in Hroles. rewrite Hroles.
    fold (Part0.run env w d). by rewrite Hidle.
Qed.

(** ** C10: the record written with an alert *)

(** C10.  Whenever a message is queued, the record stored under its key
    becomes exactly [{ lastAlert: now, handled: false }]: it has no
    [snoozedUntil], no [alerted] and no other property, whatever the record
    held before.  After a run, every queued key holds that record and every
    other key holds what it held before the run. *)
Theorem C10_alert_replaces_record :
  forall env w d key,
    (forall ch msgs st m,
       Part0.queuedKeys (Part0.processMessage env w ch msgs st m) <> Part0.queuedKeys st ->
       Part0.db (Part0.processMessage env w ch msgs st m) !! Part0.keyOf ch m
       = Some (Part0.alertRecord (Part0.now w))) /\
    (key ∈ Part0.queued (Part0.run env w d) ->
     Part0.saved (Part0.run env w d) !! key = Some (Part0.alertRecord (Part0.now w))) /\
    (key ∉ Part0.queued (Part0.run env w d) ->
     Part0.saved (Part0.run env w d) !! key = d !! key) /\
    Part0.alertRecord (Part0.now w) !! "lastAlert" = Some (Part0.VNum (Part0.now w)) /\
    Part0.alertRecord (Part0.now w) !! "handled" = Some (Part0.VBool false) /\
    Part0.alertRecord (Part0.now w) !! "snoozedUntil" = None /\
    Part0.alertRecord (Part0.now w) !! "alerted" = None /\
    (forall field, field <> "lastAlert" -> field <> "handled" ->
                   Part0.alertRecord (Part0.now w) !! field = None).
Proof.
  intros env w d key. split.
  { intros ch msgs st m Hq.
    change (Part0.processMessage env w ch msgs st m) with (stepJob env w st (ch, msgs, m)) in *.
    rewrite stepJob_spec in *.
    destruct (alertsNow env w (Part0.db st) (ch, msgs, m)); [|done].
    simpl. by rewrite lookup_insert_eq. }
  destruct (run0_records env w d key) as [Hin Hout].
  split; [done|]. split; [done|].
  split; [apply alertRecord_lastAlert|].
  split; [apply alertRecord_handled|].
  split; [by apply alertRecord_other|].
  split; [by apply alertRecord_other|].
  apply alertRecord_other.
Qed.

(** * The claims on the scenarios *)

(** ** C1 *)

(** C1, counterexample.  part_000 does not look at reactions: a client
    message carrying a staff reaction (a qualifying response for index.js)
    and no later reply is queued and sent fifty minutes after it was
    written.  index.js reads the author of a reply from the message or the
    member cache only: a later reply by sam, whom [members.fetch] resolves
    to a staff member but who is in neither, does not count there (it does
    in part_000), and the question is queued and marked. *)
Lemma C1_part000_alerts_reacted_message :
  ((Index.hasStaffReaction envA guild0 reacted).1 = true /\
   Part0.queued (Part0.run envProd (worldB [reacted] (T0 + minutes 50) 12 true) ∅)
     = ["c1-m1"] /\
   length (Part0.sent_texts
             (Part0.run envProd (worldB [reacted] (T0 + minutes 50) 12 true) ∅)) = 1%nat) /\
  (createdTimestamp plain < createdTimestamp uncachedReply /\
   bot (author uncachedReply) = false /\
   members_fetch guildCold (user_id (author uncachedReply)) = Some staffMember /\
   Part0.staffReplied envProd guildCold [uncachedReply; plain] plain = true /\
   Index.messageId <$>
     Index.queued (Index.run envA (worldCold [uncachedReply; plain] (T0 + minutes 50)) [])
     = ["m1"] /\
   Index.saved (Index.run envA (worldCold [uncachedReply; plain] (T0 + minutes 50)) [])
     = ["m1"]).
Proof. by vm_compute. Qed.

(** C1, instance: with a reply of sam in the window neither variant queues
    the question. *)
Lemma C1_witness :
  (forall a,
     a ∈ Index.queued (Index.run envA (worldA [reply; reacted] (T0 + minutes 50) true) []) ->
     Index.messageId a <> "m1") /\
  ("c1-m1" ∉
     Part0.queued (Part0.run envProd (worldB [reply; plain] (T0 + minutes 50) 12 true) ∅)).
Proof.
  split.
  - apply (proj1 C1_answered_never_alerts envA
             (worldA [reply; reacted] (T0 + minutes 50) true) []
             (support [reply; reacted]) [reacted; reply] reacted).
    + nodup.
    + here.
    + reflexivity.
    + here.
    + left. exists reply, staffMember.
      split; [here|]. split; [reflexivity|]. split; [by vm_compute|].
      split; [reflexivity|]. split; [by left|].
      exists roleStaff. split; [here|reflexivity].
  - apply (proj2 C1_answered_never_alerts envProd
             (worldB [reply; plain] (T0 + minutes 50) 12 true) ∅
             (support [reply; plain]) [reply; plain] plain).
    + nodup.
    + here.
    + reflexivity.
    + here.
    + exists reply, staffMember.
      split; [here|]. split; [by vm_compute|]. split; [by left|].
      exists roleStaff. split; [here|reflexivity].
Defined.

(** ** C2 *)

(** Outside the night hours, and at any hour while [TESTING] is on, the
    night check is false and [isOld] alone opens the gate. *)
Lemma gate_outside_night env existing created now h1 h2 :
  Part0.TESTING env = true \/ Part0.isNight h1 h2 = false ->
  Part0.decideAlert env existing created now h1 h2 <> Part0.NoAction ->
  Part0.waitTimeOf env < now - created.
Proof.
  intros Hday. rewrite decideAlert_gate.
  destruct (passesGate env existing created now h1 h2) eqn:Hgate; [|done].
  intros _. unfold passesGate in Hgate.
  apply andb_true_iff in Hgate as [_ Hgate].
  apply orb_true_iff in Hgate as [Hold|Hnight].
  - apply Z.gtb_lt in Hold. lia.
  - exfalso. destruct Hday as [Htest|Hday].
    + by rewrite Htest in Hnight.
    + rewrite Hday in Hnight. by rewrite andb_false_r in Hnight.
Qed.

(** In production during the night hours, every message younger than twelve
    hours that is not silenced passes the gate, whatever the wait time. *)
Lemma gate_night_young env created now h1 h2 :
  Part0.TESTING env = false -> Part0.isNight h1 h2 = true ->
  0 <= now -> now - created < 12 * 60 * 60 * 1000 ->
  passesGate env ∅ created now h1 h2 = true.
Proof.
  intros Htest Hnight Hnow Hyoung. unfold passesGate.
  rewrite !lookup_empty, Htest, Hnight. simpl.
  assert ((0 >? now) = false) as ->.
  { rewrite Z.gtb_ltb. apply Z.ltb_ge. lia. }
  assert ((now - created <? 12 * 60 * 60 * 1000) = true) as ->
    by (apply Z.ltb_lt; lia).
  by rewrite orb_true_r.
Qed.

(** C2 (as amended).  With [TESTING] on, as part_000 is shipped, the night
    check is switched off, and outside the night hours it is false: in both
    cases the wait time alone decides.  A candidate whose age is at most the
    wait time gets [NoAction], at night too; a candidate older than the wait
    time whose record is not silenced passes on to the cooldown test,
    whether or not its age exceeds twelve hours. *)
Theorem C2_wait_time_alone_decides :
  forall env existing created now h1 h2,
    Part0.TESTING env = true \/ Part0.isNight h1 h2 = false ->
    (now - created <= Part0.waitTimeOf env ->
     Part0.decideAlert env existing created now h1 h2 = Part0.NoAction) /\
    (Part0.waitTimeOf env < now - created -> notSilenced existing now ->
     Part0.decideAlert env existing created now h1 h2 <> Part0.NoAction).
Proof.
  intros env existing created now h1 h2 Hday. split.
  - intros Hyoung.
    destruct (Part0.decideAlert env existing created now h1 h2) eqn:Hdec; [done| |].
    all: assert (Part0.waitTimeOf env < now - created)
           by (apply (gate_outside_night env existing created now h1 h2 Hday);
               by rewrite Hdec).
    all: lia.
  - intros Hold [Hhandled Hsnooze]. rewrite decideAlert_gate.
    assert (passesGate env existing created now h1 h2 = true) as ->.
    { unfold passesGate. unfold storedNumber in Hsnooze. rewrite Hhandled. simpl.
      assert ((Part0.toNumber (Part0.orDefault (existing !! "snoozedUntil") (Part0.VNum 0))
               >? now) = false) as -> by (rewrite Z.gtb_ltb; apply Z.ltb_ge; lia).
      assert ((now - created >? Part0.waitTimeOf env) = true) as ->
        by (apply Z.gtb_lt; lia).
      done. }
    by destruct (_ >? _).
Qed.

(** C2, counterexample.  part_000 as shipped, at 22 h: a client message
    three minutes old, far below twelve hours, is past the testing wait
    time of two minutes, gets [AlertNow] and is queued. *)
Lemma C2_testing_night_alerts_below_floor :
  Part0.TESTING envTest = true /\
  Part0.isNight 22 22 = true /\
  (T0 + minutes 3) - T0 < 12 * 60 * 60 * 1000 /\
  Part0.decideAlert envTest ∅ T0 (T0 + minutes 3) 22 22 = Part0.AlertNow /\
  Part0.queued (Part0.run envTest (worldB [plain] (T0 + minutes 3) 22 true) ∅) = ["c1-m1"].
Proof. by vm_compute. Qed.

(** C2, instance: at 22 h with [TESTING] on, one minute old gives
    [NoAction], three minutes old does not. *)
Lemma C2_witness :
  Part0.decideAlert envTest ∅ T0 (T0 + minutes 1) 22 22 = Part0.NoAction /\
  Part0.decideAlert envTest ∅ T0 (T0 + minutes 3) 22 22 <> Part0.NoAction.
Proof.
  split.
  - apply (C2_wait_time_alone_decides envTest ∅ T0 (T0 + minutes 1) 22 22).
    + by left.
    + by vm_compute.
  - apply (C2_wait_time_alone_decides envTest ∅ T0 (T0 + minutes 3) 22 22).
    + by left.
    + by vm_compute.
    + split; [reflexivity|by vm_compute].
Defined.

(** With [TESTING] switched to false, the production setting named in the
    source: at 22 h a client message that is one minute old, with no
    record, gets [AlertNow] and is queued; at 14 h it gets [NoAction]. *)
Example night_check_with_testing_off :
  Part0.decideAlert envProd ∅ T0 (T0 + minutes 1) 22 22 = Part0.AlertNow /\
  Part0.decideAlert envProd ∅ T0 (T0 + minutes 1) 14 14 = Part0.NoAction /\
  Part0.queued (Part0.run envProd (worldB [plain] (T0 + minutes 1) 22 true) ∅) = ["c1-m1"].
Proof. by vm_compute. Qed.

(** ** C3 *)

(** C3, the code at the failing input.  part_000 writes the record when the
    alert is queued: with every send rejected nothing is sent, yet the saved
    store holds [{ lastAlert: now, handled: false }] for the message, and a
    run thirty seconds later queues nothing. *)
Theorem C3_part000_marks_before_send :
  Part0.sent_texts (Part0.run envTest (worldB [plain] (T0 + minutes 5) 12 false) ∅) = [] /\
  Part0.queued (Part0.run envTest (worldB [plain] (T0 + minutes 5) 12 false) ∅) = ["c1-m1"] /\
  Part0.saved (Part0.run envTest (worldB [plain] (T0 + minutes 5) 12 false) ∅) !! "c1-m1"
    = Some (Part0.alertRecord (T0 + minutes 5)) /\
  Part0.queued
    (Part0.run envTest (worldB [plain] (T0 + minutes 5 + 30000) 12 true)
       (Part0.saved (Part0.run envTest (worldB [plain] (T0 + minutes 5) 12 false) ∅)))
    = [].
Proof. by vm_compute. Qed.

(** index.js marks after the send: the ids added to [alertedMessages] are
    those of the batches whose send resolved, and with a rejected first
    send the saved array gains nothing. *)
Lemma index_marks_only_delivered env w alerted :
  hasClientRoles (Index.guild w) = true ->
  Index.saved (Index.run env w alerted) =
  filter (fun i => i ∉ Index.answeredMessageIds (Index.scan env w alerted)) alerted ++
  (if Index.channels_fetch_pm w
   then Index.messageId <$>
          concat (delivered w 0 (Index.alertBatches
                    (Index.unansweredMessages (Index.scan env w alerted))))
   else []).
Proof. apply run_saved. Qed.

Example index_rejected_send_leaves_unmarked :
  Index.saved (Index.run envA (worldA [plain] (T0 + minutes 50) false) []) = [] /\
  Index.sent_texts (Index.run envA (worldA [plain] (T0 + minutes 50) false) []) = [].
Proof. by vm_compute. Qed.

(** ** C4 *)



(** ** C5 *)

(** C5, counterexample.  The message has a later staff reply, so the
    reply-after test is true, and its reaction is fetched all the same. *)
Lemma C5_lookup_despite_reply :
  Index.hasStaffReply envA guild0 [reacted; reply] reacted = true /\
  Index.reactionFetches
    (Index.processMessage envA guild0 [] (support [reply; reacted]) [reacted; reply]
       Index.emptyScan reacted)
    = [("m1", "thumbsup")].
Proof. by vm_compute. Qed.

(** C5, instance: the question has a staff reply in the window; the
    thumbs-up of sam is fetched all the same, and the eyes after it are
    not. *)
Lemma C5_witness :
  staffReplyInWindow envA guild0 [reactedTwice; reply] reactedTwice /\
  Index.reactionFetches
    (Index.processMessage envA guild0 [] (support [reply; reactedTwice])
       [reactedTwice; reply] Index.emptyScan reactedTwice)
  = Index.reactionFetches Index.emptyScan ++
    ((fun r => (msg_id reactedTwice, emoji r)) <$> ([] ++ [thumbsUp sam])).
Proof.
  split.
  - exists reply, staffMember.
    split; [here|]. split; [reflexivity|]. split; [by vm_compute|].
    split; [reflexivity|]. split; [by left|].
    exists roleStaff. split; [here|reflexivity].
  - apply (proj1 (proj2 (C5_reaction_lookup_always_runs envA guild0 []
                           (support [reply; reactedTwice]) [reactedTwice; reply]
                           Index.emptyScan reactedTwice
                           (conj eq_refl
                              (ex_intro _ clientMember
                                 (ex_intro _ roleExt
                                    (conj (or_introl eq_refl)
                                       (conj (list_elem_of_here _ _) eq_refl))))))))
      with (after := [eyes alice]).
    + reflexivity.
    + intros r' Hr'. by apply elem_of_nil in Hr'.
    + exists [sam], sam, staffMember.
      split; [reflexivity|]. split; [here|]. split; [reflexivity|].
      split; [reflexivity|]. exists roleStaff. split; [here|reflexivity].
Defined.

(** ** C6 *)

(** C6, counterexample.  part_000 receives the page newest first and
    evaluates it as it is: the first message is the later one, the second
    is ten hours old, far outside a three hour lookback, and both are
    queued in that order. *)
Lemma C6_part000_window_unbounded_descending :
  Part0.fetchMessages (support [later; question "m1" (T0 - minutes 600) []])
    = Some [later; question "m1" (T0 - minutes 600) []] /\
  createdTimestamp (question "m1" (T0 - minutes 600) []) < createdTimestamp later /\
  createdTimestamp (question "m1" (T0 - minutes 600) [])
    < (T0 + minutes 20) - Index.timeWindow /\
  Part0.queued
    (Part0.run envTest
       (worldB [later; question "m1" (T0 - minutes 600) []] (T0 + minutes 20) 12 true) ∅)
    = ["c1-m2"; "c1-m1"].
Proof. by vm_compute. Qed.

(** C6, instance: a page given newest first is handed over oldest first
    in index.js; part_000 queues in page order. *)
Lemma C6_witness :
  (Forall (fun m => Index.Date_now (worldA [reply; reacted] (T0 + minutes 50) true)
                      (channel_id (support [reply; reacted])) - Index.timeWindow
                    <= createdTimestamp m) [reacted; reply] /\
   ascending [reacted; reply]) /\
  (exists ks,
     Part0.queuedKeys
       (Part0.scanChannel envTest (worldB [later; plain] (T0 + minutes 20) 12 true)
          (initState ∅) (support [later; plain]))
     = Part0.queuedKeys (initState ∅) ++ ks /\
     ks `sublist_of` (Part0.keyOf (support [later; plain]) <$> [later; plain])).
Proof.
  split.
  - apply (proj1 C6_window_recent_and_ascending
             (worldA [reply; reacted] (T0 + minutes 50) true) (support [reply; reacted])).
    reflexivity.
  - apply (proj2 C6_window_recent_and_ascending envTest
             (worldB [later; plain] (T0 + minutes 20) 12 true) (initState ∅)
             (support [later; plain]) [later; plain]).
    reflexivity.
Defined.

(** ** C7 *)

(** C7, counterexample.  In index.js the alerted message is answered two
    hundred minutes after it was written; the run at T0 + 230 min no longer
    has it in the three hour window and its id stays in the saved array.
    In part_000 the answered message is in the page and its record stays in
    the saved store. *)
Lemma C7_record_not_cleared :
  (Index.hasStaffReply envA guild0 [plain; answer "m2" (T0 + minutes 200)] plain = true /\
   Index.saved
     (Index.run envA (worldA [answer "m2" (T0 + minutes 200); plain] (T0 + minutes 230) true)
        ["m1"])
   = ["m1"]) /\
  (Part0.staffReplied envTest guild0 [reply; plain] plain = true /\
   Part0.saved
     (Part0.run envTest (worldB [reply; plain] (T0 + minutes 10) 12 true)
        {[ "c1-m1" := Part0.alertRecord (T0 + minutes 3) ]}) !! "c1-m1"
   = Some (Part0.alertRecord (T0 + minutes 3))).
Proof. by vm_compute. Qed.

(** C7, instance: the answered message is still in the window, so index.js
    drops its id; part_000 keeps the record of the answered message. *)
Lemma C7_witness :
  ("m1" ∉ Index.saved
            (Index.run envA (worldA [reply; plain] (T0 + minutes 50) true) ["m1"])) /\
  Part0.saved
    (Part0.run envTest (worldB [reply; plain] (T0 + minutes 10) 12 true)
       {[ "c1-m1" := Part0.alertRecord (T0 + minutes 3) ]}) !! "c1-m1"
  = ({[ "c1-m1" := Part0.alertRecord (T0 + minutes 3) ]}
       : gmap string (gmap string Part0.Val)) !! "c1-m1".
Proof.
  split.
  - apply (proj1 C7_answered_message_is_cleared envA
             (worldA [reply; plain] (T0 + minutes 50) true) ["m1"]
             (support [reply; plain]) [plain; reply] plain).
    + reflexivity.
    + here.
    + reflexivity.
    + here.
    + split; [reflexivity|]. exists clientMember, roleExt.
      split; [by left|]. split; [here|reflexivity].
    + left. exists reply, staffMember.
      split; [here|]. split; [reflexivity|]. split; [by vm_compute|].
      split; [reflexivity|]. split; [by left|].
      exists roleStaff. split; [here|reflexivity].
    + here.
  - destruct (proj2 C7_answered_message_is_cleared envTest
                (worldB [reply; plain] (T0 + minutes 10) 12 true)
                {[ "c1-m1" := Part0.alertRecord (T0 + minutes 3) ]}) as (_ & _ & Hrun).
    refine (proj1 (Hrun (support [reply; plain]) [reply; plain] plain _ _ _ _ _)).
    + nodup.
    + here.
    + reflexivity.
    + here.
    + exists reply, staffMember.
      split; [here|]. split; [by vm_compute|]. split; [by left|].
      exists roleStaff. split; [here|reflexivity].
Defined.

(** ** C8 *)

(** C8, instance: a handled record and a record snoozed for another
    seventy minutes, for a message that is fifty minutes old. *)
Lemma C8_witness :
  ("c1-m1" ∉
     Part0.queued
       (Part0.run envTest (worldB [plain] (T0 + minutes 50) 12 true)
          {[ "c1-m1" := {[ "handled" := Part0.VBool true ]} ]})) /\
  ("c1-m1" ∉
     Part0.queued
       (Part0.run envTest (worldB [plain] (T0 + minutes 50) 12 true)
          {[ "c1-m1" := {[ "snoozedUntil" := Part0.VNum (T0 + minutes 120) ]} ]})).
Proof.
  split.
  - apply (C8_silenced_key_never_alerts envTest (worldB [plain] (T0 + minutes 50) 12 true)
             {[ "c1-m1" := {[ "handled" := Part0.VBool true ]} ]} "c1-m1"
             {[ "handled" := Part0.VBool true ]}).
    + reflexivity.
    + left. reflexivity.
  - apply (C8_silenced_key_never_alerts envTest (worldB [plain] (T0 + minutes 50) 12 true)
             {[ "c1-m1" := {[ "snoozedUntil" := Part0.VNum (T0 + minutes 120) ]} ]} "c1-m1"
             {[ "snoozedUntil" := Part0.VNum (T0 + minutes 120) ]}).
    + reflexivity.
    + right. exists (T0 + minutes 120). split; [reflexivity|by vm_compute].
Defined.

(** ** C9 *)

(** C9, counterexample.  In index.js the only send of the first run is
    rejected, so nothing is marked; the second run over the same window,
    started from what the first run saved, queues the message again.  In
    part_000 the first run meets the question 119 seconds old and queues
    nothing; the second run, two seconds later over the same page, finds it
    past the testing wait time of two minutes and queues it. *)
Lemma C9_index_second_run_alerts_after_rejected_send :
  (Index.saved (Index.run envA (worldA [plain] (T0 + minutes 50) false) []) = [] /\
   Index.messageId <$>
     Index.queued
       (Index.run envA (worldA [plain] (T0 + minutes 50) true)
          (Index.saved (Index.run envA (worldA [plain] (T0 + minutes 50) false) [])))
   = ["m1"]) /\
  (Part0.queued (Part0.run envTest (worldB [plain] (T0 + 119000) 12 true) ∅) = [] /\
   Part0.queued
     (Part0.run envTest (worldB [plain] (T0 + 121000) 12 true)
        (Part0.saved (Part0.run envTest (worldB [plain] (T0 + 119000) 12 true) ∅)))
   = ["c1-m1"]).
Proof. by vm_compute. Qed.

(** C9, instance: the first run alerts for the question; a second run
    one minute later in index.js (same window), thirty seconds later in
    part_000 (within the testing cooldown, the one minute old message still
    below the wait time), is silent. *)
Lemma C9_witness :
  Index.queued
    (Index.run envA (worldA [plain] (T0 + minutes 51) true)
       (Index.saved (Index.run envA (worldA [plain] (T0 + minutes 50) true) []))) = [] /\
  Part0.queued
    (Part0.run envTest (worldB [later; plain] (T0 + minutes 11 + 30000) 12 false)
       (Part0.saved (Part0.run envTest (worldB [later; plain] (T0 + minutes 11) 12 true) ∅)))
  = [].
Proof.
  split.
  - apply (proj1 C9_second_run_is_silent envA
             (worldA [plain] (T0 + minutes 50) true)
             (worldA [plain] (T0 + minutes 51) true) []).
    + nodup.
    + reflexivity.
    + intros n. reflexivity.
    + reflexivity.
    + reflexivity.
    + intros ch Hch. vm_compute in Hch.
      apply list_elem_of_singleton in Hch. by subst ch.
  - apply (proj2 C9_second_run_is_silent envTest
             (worldB [later; plain] (T0 + minutes 11) 12 true)
             (worldB [later; plain] (T0 + minutes 11 + 30000) 12 false) ∅);
      [reflexivity|reflexivity|reflexivity|].
    split; [by vm_compute|]. split; [by vm_compute|].
    intros ch msgs m Hch Hf Hm. vm_compute in Hch.
    apply list_elem_of_singleton in Hch. subst ch.
    vm_compute in Hf. injection Hf as <-.
    apply elem_of_cons in Hm as [->|Hm];
      [|apply list_elem_of_singleton in Hm; subst m].
    all: repeat split; intros H; vm_compute in H;
      first [discriminate H | exfalso; by apply H | by vm_compute].
Defined.

(** ** C10 *)

(** C10, instance: a record with a past snooze is replaced when the message
    alerts again; the snooze is gone. *)
Lemma C10_witness :
  Part0.saved
    (Part0.run envTest (worldB [plain] (T0 + minutes 20) 12 true)
       {[ "c1-m1" := snoozedBefore ]}) !! "c1-m1"
  = Some (Part0.alertRecord (T0 + minutes 20)) /\
  Part0.alertRecord (T0 + minutes 20) !! "snoozedUntil" = None.
Proof.
  destruct (C10_alert_replaces_record envTest (worldB [plain] (T0 + minutes 20) 12 true)
              {[ "c1-m1" := snoozedBefore ]} "c1-m1")
    as (_ & Hin & _ & _ & _ & Hsnooze & _).
  split; [|exact Hsnooze].
  apply Hin. here.
Defined.

(** * Further properties of the code *)

(** ** index.js: fetchRecentMessages and the sort *)

Lemma scanBatch_acc cutoff batch messages :
  (Index.scanBatch cutoff batch messages).1 =
  messages ++ (Index.scanBatch cutoff batch []).1.
Proof.
  revert messages. induction batch as [|msg rest IH]; intros messages; simpl.
  - by rewrite app_nil_r.
  - destruct (createdTimestamp msg <? cutoff); simpl; [by rewrite app_nil_r|].
    rewrite (IH (messages ++ [msg])), (IH [msg]). by rewrite <- app_assoc.
Qed.

Lemma scanBatch_prefix cutoff batch :
  (Index.scanBatch cutoff batch []).1 `prefix_of` batch.
Proof.
  induction batch as [|msg rest IH]; simpl; [done|].
  destruct (createdTimestamp msg <? cutoff); simpl; [apply prefix_nil|].
  rewrite (scanBatch_acc cutoff rest [msg]). simpl. by apply prefix_cons.
Qed.

Lemma scanBatch_whole cutoff batch :
  (Index.scanBatch cutoff batch []).2 = false ->
  (Index.scanBatch cutoff batch []).1 = batch.
Proof.
  induction batch as [|msg rest IH]; simpl; [done|].
  destruct (createdTimestamp msg <? cutoff); simpl; [done|].
  rewrite (scanBatch_acc cutoff rest [msg]). simpl.
  assert ((Index.scanBatch cutoff rest [msg]).2 = (Index.scanBatch cutoff rest []).2) as ->.
  { clear IH. generalize [msg]. generalize (@nil Message).
    induction rest as [|x rest IH]; intros l1 l2; simpl; [done|].
    destruct (createdTimestamp x <? cutoff); [done|]. apply IH. }
  intros H. by rewrite IH.
Qed.

Lemma scanBatch_flag_acc cutoff batch messages :
  (Index.scanBatch cutoff batch messages).2 = (Index.scanBatch cutoff batch []).2.
Proof.
  generalize (@nil Message). revert messages.
  induction batch as [|x rest IH]; intros l1 l2; simpl; [done|].
  destruct (createdTimestamp x <? cutoff); [done|]. apply IH.
Qed.

Lemma fetchLoop_prefix cutoff replies messages fetched :
  Index.fetchLoop cutoff replies messages = Some fetched ->
  exists more, fetched = messages ++ more /\ more `prefix_of` pagesOf replies.
Proof.
  revert messages fetched.
  induction replies as [|reply later IH]; intros messages fetched; simpl.
  - intros [= <-]. exists []. by rewrite app_nil_r.
  - destruct reply as [batch|]; [|done].
    change (pagesOf (Some batch :: later)) with (batch ++ pagesOf later).
    pose proof (scanBatch_acc cutoff batch messages) as Hacc.
    pose proof (scanBatch_flag_acc cutoff batch messages) as Hflag.
    pose proof (scanBatch_prefix cutoff batch) as Hpre.
    pose proof (scanBatch_whole cutoff batch) as Hwhole.
    destruct (Index.scanBatch cutoff batch messages) as [messages' returned].
    simpl in Hacc, Hflag. subst messages'.
    assert (forall r, Some (messages ++ (Index.scanBatch cutoff batch []).1) = Some r ->
              exists more, r = messages ++ more /\ more `prefix_of` batch ++ pagesOf later)
      as Hstop.
    { intros r [= <-]. eexists. split; [done|]. by apply prefix_app_r. }
    assert (returned = false ->
            forall r, Index.fetchLoop cutoff later
                        (messages ++ (Index.scanBatch cutoff batch []).1) = Some r ->
              exists more, r = messages ++ more /\ more `prefix_of` batch ++ pagesOf later)
      as Hnext.
    { intros -> r Hr. apply IH in Hr as (more & -> & Hmore).
      rewrite Hwhole by done. exists (batch ++ more).
      split; [by rewrite app_assoc|]. by apply prefix_app. }
    destruct returned; [apply Hstop|].
    destruct (length batch <? 100)%nat; [apply Hstop|].
    destruct (last batch) as [lastMsg|]; [|by apply Hnext].
    destruct (createdTimestamp lastMsg <? cutoff); [apply Hstop|by apply Hnext].
Qed.

(** X1.  The window handed to the message loop of index.js holds exactly
    the messages of an initial segment of what the transport returned, page
    after page: nothing is invented, duplicated or taken from beyond a gap. *)
Theorem window_is_permuted_prefix_of_pages :
  forall w ch allMessages,
    Index.allMessagesOf w ch = Some allMessages ->
    exists fetched,
      fetched `prefix_of` pagesOf (messages_fetch ch) /\ allMessages ≡ₚ fetched.
Proof.
  intros w ch allMessages Hw. unfold Index.allMessagesOf in Hw.
  destruct (Index.fetchRecentMessages _ ch) as [fetched|] eqn:Hf; [|done].
  simpl in Hw. injection Hw as <-.
  unfold Index.fetchRecentMessages in Hf.
  apply fetchLoop_prefix in Hf as (more & -> & Hmore).
  exists more. split; [done|]. apply sortByTimestamp_perm.
Qed.

Lemma scanBatch_descending cutoff batch :
  descending batch ->
  (Index.scanBatch cutoff batch []).1 = filter (fun m => cutoff <= createdTimestamp m) batch.
Proof.
  unfold descending. induction batch as [|msg rest IH]; intros Hd; simpl; [done|].
  apply StronglySorted_inv in Hd as [Hrest Hmsg].
  destruct (createdTimestamp msg <? cutoff) eqn:Hold; simpl.
  - apply Z.ltb_lt in Hold. rewrite filter_cons_False by lia.
    symmetry. apply elem_of_nil_inv. intros x [Hx Hin]%list_elem_of_filter.
    rewrite Forall_forall in Hmsg. specialize (Hmsg x Hin). simpl in Hmsg. lia.
  - apply Z.ltb_ge in Hold. rewrite filter_cons_True by lia.
    rewrite (scanBatch_acc cutoff rest [msg]). simpl. by rewrite IH.
Qed.

Lemma scanBatch_returned cutoff batch :
  Exists (fun m => createdTimestamp m < cutoff) batch ->
  (Index.scanBatch cutoff batch []).2 = true.
Proof.
  induction batch as [|msg rest IH]; intros Hex; simpl.
  - by apply Exists_nil in Hex.
  - destruct (createdTimestamp msg <? cutoff) eqn:Hold; [done|].
    rewrite scanBatch_flag_acc. apply IH.
    apply Exists_cons in Hex as [Hmsg|Hrest]; [|done].
    apply Z.ltb_ge in Hold. lia.
Qed.

(** X2.  When a page comes newest first and either is short (fewer than 100
    messages) or reaches back beyond the cutoff, paging stops with it:
    whatever the transport would answer next is never read, and the result
    is exactly the messages of that page that are not older than the
    cutoff. *)
Theorem fetchLoop_stops_at_short_or_old_page :
  forall cutoff batch later,
    descending batch ->
    (length batch < 100)%nat \/ Exists (fun m => createdTimestamp m < cutoff) batch ->
    Index.fetchLoop cutoff (Some batch :: later) [] =
    Some (filter (fun m => cutoff <= createdTimestamp m) batch).
Proof.
  intros cutoff batch later Hd Hstop. simpl.
  pose proof (scanBatch_descending cutoff batch Hd) as Hres.
  pose proof (scanBatch_returned cutoff batch) as Hret.
  destruct (Index.scanBatch cutoff batch []) as [messages' returned]. simpl in *.
  subst messages'. destruct returned; [done|].
  destruct Hstop as [Hshort|Hold].
  - apply Nat.ltb_lt in Hshort. by rewrite Hshort.
  - by specialize (Hret Hold).
Qed.

Lemma insertByTimestamp_filter t m l :
  filter (fun x => createdTimestamp x = t) (Index.insertByTimestamp m l) =
  filter (fun x => createdTimestamp x = t) (m :: l).
Proof.
  induction l as [|x rest IH]; simpl; [done|].
  destruct (createdTimestamp m <=? createdTimestamp x) eqn:Hle; [done|].
  apply Z.leb_gt in Hle.
  rewrite (filter_cons _ x), IH, !(filter_cons _ m), (filter_cons _ x).
  repeat case_decide; try done. lia.
Qed.

(** X3.  The sort of index.js is stable and loses nothing: messages with
    the same timestamp keep the order in which they were fetched. *)
Theorem sortByTimestamp_stable :
  forall t l,
    filter (fun x => createdTimestamp x = t) (Index.sortByTimestamp l) =
    filter (fun x => createdTimestamp x = t) l.
Proof.
  intros t l. induction l as [|m rest IH]; [done|].
  change (Index.sortByTimestamp (m :: rest))
    with (Index.insertByTimestamp m (Index.sortByTimestamp rest)).
  rewrite insertByTimestamp_filter, !(filter_cons _ m), IH. done.
Qed.

(** ** index.js: the response tests *)

(** X4.  The reaction test of index.js is true exactly when some reaction
    of the message, whose users could be fetched, has a non-bot user that
    resolves to a member with the manager role.  A rejected
    [reaction.users.fetch()] or [members.fetch] for one emoji or user does
    not hide a staff reaction found elsewhere. *)
Theorem hasStaffReaction_true_iff :
  forall env g msg,
    (Index.hasStaffReaction env g msg).1 = true <->
    exists r users u mem,
      r ∈ reactions_cache msg /\ users_fetch r = Some users /\ u ∈ users /\
      bot u = false /\ members_fetch g (user_id u) = Some mem /\
      roles_has mem (Index.MANAGER_ROLE_ID env) = true.
Proof.
  intros env g msg. unfold Index.hasStaffReaction. rewrite reactionLoop_true. split.
  - intros (r & users & Hin & Hf & (u & mem & H)%staffAmong_true). by exists r, users, u, mem.
  - intros (r & users & u & mem & Hin & Hf & H). exists r, users.
    split; [done|]. split; [done|]. apply staffAmong_true. by exists u, mem.
Qed.

(** X5.  In both variants a reply counts only if it is strictly later than
    the message: a message is never answered by itself or by a message with
    the same timestamp, and the newest message of a window has no reply.
    In index.js the reply is moreover not from a bot and in the same
    channel.  A reply found in a window is still found in any larger
    window. *)
Theorem staff_reply_is_strictly_later :
  forall envA envB g msgs msgs' m,
    (Index.hasStaffReply envA g msgs m = true ->
     exists r, r ∈ msgs /\ createdTimestamp m < createdTimestamp r /\
               bot (author r) = false /\ channelId r = channelId m) /\
    (Part0.staffReplied envB g msgs m = true ->
     exists r, r ∈ msgs /\ createdTimestamp m < createdTimestamp r) /\
    (Forall (fun r => createdTimestamp r <= createdTimestamp m) msgs ->
     Index.hasStaffReply envA g msgs m = false /\
     Part0.staffReplied envB g msgs m = false) /\
    (msgs ⊆ msgs' ->
     (Index.hasStaffReply envA g msgs m = true ->
      Index.hasStaffReply envA g msgs' m = true) /\
     (Part0.staffReplied envB g msgs m = true ->
      Part0.staffReplied envB g msgs' m = true)).
Proof.
  intros envA envB g msgs msgs' m.
  assert (forall r, Index.isStaffReply envA g m r = true ->
            createdTimestamp m < createdTimestamp r /\
            bot (author r) = false /\ channelId r = channelId m) as HA.
  { intros r. unfold Index.isStaffReply.
    destruct (String.eqb (channelId r) (channelId m)) eqn:Hch; simpl; [|done].
    destruct (createdTimestamp r <=? createdTimestamp m) eqn:Hts; [done|].
    destruct (bot (author r)); [done|]. intros _.
    apply String.eqb_eq in Hch. apply Z.leb_gt in Hts. done. }
  assert (forall r, Part0.isStaffReply envB g m r = true ->
            createdTimestamp m < createdTimestamp r) as HB.
  { intros r. unfold Part0.isStaffReply.
    destruct (createdTimestamp r <=? createdTimestamp m) eqn:Hts; [done|].
    intros _. by apply Z.leb_gt in Hts. }
  split; [|split; [|split]].
  - intros (r & Hin & Hr)%hasStaffReply_true. exists r. split; [done|]. by apply HA.
  - intros (r & Hin & Hr)%staffReplied_true. exists r. split; [done|]. by apply HB.
  - intros Hall. rewrite Forall_forall in Hall. split.
    + apply not_true_is_false. intros (r & Hin & Hr)%hasStaffReply_true.
      apply HA in Hr as [Hlt _]. specialize (Hall r Hin). simpl in Hall. lia.
    + apply not_true_is_false. intros (r & Hin & Hr)%staffReplied_true.
      apply HB in Hr. specialize (Hall r Hin). simpl in Hall. lia.
  - intros Hsub. split.
    + intros (r & Hin & Hr)%hasStaffReply_true. apply hasStaffReply_true.
      exists r. split; [by apply Hsub|done].
    + intros (r & Hin & Hr)%staffReplied_true. apply staffReplied_true.
      exists r. split; [by apply Hsub|done].
Qed.

(** ** index.js: what a run queues, sends and saves *)

(** X6.  When the guild has client roles, the alerts queued by a run of
    index.js are exactly those of the messages of the scanned windows that
    pass the author filter, are not answered and are not yet in
    [alertedMessages]: none is missed and none is added. *)
Theorem index_queue_exact :
  forall env w alerted a,
    hasClientRoles (Index.guild w) = true ->
    (a ∈ Index.queued (Index.run env w alerted) <->
     exists ch msgs m,
       ch ∈ Index.textChannels w /\ Index.allMessagesOf w ch = Some msgs /\ m ∈ msgs /\
       Index.isMonitored (Index.guild w) m = true /\
       Index.isAnswered env (Index.guild w) msgs m = false /\
       (msg_id m ∉ alerted) /\ a = Index.mkAlert ch m).
Proof.
  intros env w alerted a Hroles. rewrite run_queued by done.
  rewrite elem_of_scan_unanswered. split.
  - intros (ch & msgs & m & Hch & Hw & Hm & Hq & ->). exists ch, msgs, m.
    apply queues_true in Hq. tauto.
  - intros (ch & msgs & m & Hch & Hw & Hm & Hmon & Hans & Hnot & ->). exists ch, msgs, m.
    repeat split; try done. by apply queues_true.
Qed.

Lemma sendBatches_same_sends env w w' n batches alerted sent :
  (forall k, Index.send_resolves w k = Index.send_resolves w' k) ->
  Index.sendBatches env w n batches alerted sent =
  Index.sendBatches env w' n batches alerted sent.
Proof.
  intros Hsame. revert n alerted sent.
  induction batches as [|batch rest IH]; intros n alerted sent; simpl; [done|].
  rewrite Hsame. destruct (Index.send_resolves w' n); [apply IH|done].
Qed.

Lemma fold_left_same {S A} (f f' : S -> A -> S) (l : list A) (s : S) :
  (forall s a, f s a = f' s a) -> fold_left f l s = fold_left f' l s.
Proof.
  intros Hsame. revert s. induction l as [|a l IH]; intros s; simpl; [done|].
  rewrite Hsame. apply IH.
Qed.

(** X7.  A channel that is not text based, or whose fetch is rejected, has
    no effect on a run of index.js: the run queues, sends and saves exactly
    what it would without that channel. *)
Theorem index_failed_channel_is_skipped :
  forall env g l1 ch l2 clock pm send alerted,
    isTextBased ch = false \/ Index.fetchRecentMessages (clock (channel_id ch)) ch = None ->
    Index.run env
      {| Index.guild := g; Index.channels_cache := l1 ++ ch :: l2;
         Index.Date_now := clock; Index.channels_fetch_pm := pm;
         Index.send_resolves := send |} alerted =
    Index.run env
      {| Index.guild := g; Index.channels_cache := l1 ++ l2;
         Index.Date_now := clock; Index.channels_fetch_pm := pm;
         Index.send_resolves := send |} alerted.
Proof.
  intros env g l1 ch l2 clock pm send alerted Hskip.
  set (w1 := {| Index.guild := g; Index.channels_cache := l1 ++ ch :: l2;
                Index.Date_now := clock; Index.channels_fetch_pm := pm;
                Index.send_resolves := send |}).
  set (w2 := {| Index.guild := g; Index.channels_cache := l1 ++ l2;
                Index.Date_now := clock; Index.channels_fetch_pm := pm;
                Index.send_resolves := send |}).
  assert (Index.scan env w1 alerted = Index.scan env w2 alerted) as Hscan.
  { unfold Index.scan, Index.textChannels. simpl.
    rewrite !filter_app, filter_cons, !fold_left_app.
    assert (forall st c, Index.scanChannel env w1 alerted st c =
                         Index.scanChannel env w2 alerted st c) as Hsame by done.
    rewrite (fold_left_same _ _ (filter _ l1) _ Hsame).
    case_decide as Htext.
    - simpl. destruct Hskip as [Hno|Hrej]; [congruence|].
      assert (Index.scanChannel env w1 alerted
                (fold_left (Index.scanChannel env w2 alerted)
                   (filter (fun c => isTextBased c = true) l1) Index.emptyScan) ch
              = fold_left (Index.scanChannel env w2 alerted)
                  (filter (fun c => isTextBased c = true) l1) Index.emptyScan) as ->.
      { unfold Index.scanChannel at 1, Index.allMessagesOf. simpl. by rewrite Hrej. }
      by apply fold_left_same.
    - by apply fold_left_same. }
  unfold Index.run. simpl. rewrite Hscan.
  destruct (length _ =? 0)%nat; [done|].
  destruct (0 <? length (Index.unansweredMessages _))%nat; [|done].
  destruct pm; [|done].
  by rewrite (sendBatches_same_sends env w1 w2).
Qed.

Lemma slices_bounds fuel l :
  Forall (fun b => (0 < length b <= 5)%nat) (Index.slices fuel l).
Proof.
  revert l. induction fuel as [|fuel IH]; intros l; simpl; [constructor|].
  destruct l as [|x l']; [constructor|].
  constructor; [|apply IH]. rewrite length_take. cbn [length]. lia.
Qed.

Lemma slices_full fuel l bs1 b b' bs2 :
  Index.slices fuel l = bs1 ++ b :: b' :: bs2 -> length b = 5%nat.
Proof.
  revert l bs1. induction fuel as [|fuel IH]; intros l bs1; cbn [Index.slices].
  - by destruct bs1.
  - destruct l as [|x l']; [by destruct bs1|].
    destruct bs1 as [|b0 bs1]; cbn [app].
    + intros [= <- Hrest].
      destruct fuel as [|fuel]; [done|]. cbn [Index.slices] in Hrest.
      destruct (drop 4 l') as [|y rest] eqn:Hdrop; [done|].
      assert (length (drop 4 l') <> 0)%nat as Hlen by (by rewrite Hdrop).
      rewrite length_drop in Hlen. cbn [length]. rewrite length_take. lia.
    + intros [= _ Hrest]. by apply (IH (drop 4 l') bs1).
Qed.

(** X8.  The batches of index.js partition the queue in order: put end to
    end they give the queue back, no batch is empty, none holds more than
    five alerts, and every batch but the last holds exactly five. *)
Theorem alertBatches_partition :
  forall l,
    concat (Index.alertBatches l) = l /\
    Forall (fun b => (0 < length b <= 5)%nat) (Index.alertBatches l) /\
    (forall bs1 b b' bs2,
       Index.alertBatches l = bs1 ++ b :: b' :: bs2 -> length b = 5%nat).
Proof.
  intros l. split; [apply alertBatches_concat|]. split; [apply slices_bounds|].
  intros bs1 b b' bs2. apply slices_full.
Qed.

Lemma delivered_prefix w n batches : delivered w n batches `prefix_of` batches.
Proof.
  revert n. induction batches as [|batch rest IH]; intros n; simpl; [done|].
  destruct (Index.send_resolves w n); [by apply prefix_cons|apply prefix_nil].
Qed.

Lemma delivered_resolved w n batches k :
  (k < length (delivered w n batches))%nat -> Index.send_resolves w (n + k) = true.
Proof.
  revert n k. induction batches as [|batch rest IH]; intros n k; simpl; [lia|].
  destruct (Index.send_resolves w n) eqn:Hn; simpl; [|lia].
  destruct k as [|k]; [by rewrite Nat.add_0_r|].
  intros Hk. replace (n + S k)%nat with (S n + k)%nat by lia. apply IH. lia.
Qed.

Lemma delivered_stop w n batches :
  delivered w n batches = batches \/
  Index.send_resolves w (n + length (delivered w n batches)) = false.
Proof.
  revert n. induction batches as [|batch rest IH]; intros n; simpl; [by left|].
  destruct (Index.send_resolves w n) eqn:Hn; simpl.
  - destruct (IH (S n)) as [->|Hstop]; [by left|].
    right. by replace (n + S (length (delivered w (S n) rest)))%nat
             with (S n + length (delivered w (S n) rest))%nat by lia.
  - right. by rewrite Nat.add_0_r.
Qed.

Lemma run_sent env w alerted :
  hasClientRoles (Index.guild w) = true ->
  Index.channels_fetch_pm w = true ->
  Index.sent_texts (Index.run env w alerted) =
  Index.batchText env <$>
    delivered w 0 (Index.alertBatches (Index.unansweredMessages (Index.scan env w alerted))).
Proof.
  unfold hasClientRoles, Index.run. intros H Hpm.
  apply negb_true_iff in H. rewrite H, Hpm.
  destruct (Index.unansweredMessages (Index.scan env w alerted)) as [|a0 U] eqn:HU; [done|].
  change (0 <? length (a0 :: U))%nat with true. cbv iota.
  by rewrite sendBatches_delivered.
Qed.

(** X9.  The dispatch of index.js sends the batches in order up to the
    first rejected send and stops there: the texts sent and the ids added
    to [alertedMessages] are those of the same initial run of batches, every
    send of that run resolved, and either all batches went out or the next
    send was the rejected one. *)
Theorem index_dispatch_stops_at_first_rejected_send :
  forall env w alerted,
    hasClientRoles (Index.guild w) = true ->
    Index.channels_fetch_pm w = true ->
    exists done_,
      done_ `prefix_of` Index.alertBatches (Index.queued (Index.run env w alerted)) /\
      Index.sent_texts (Index.run env w alerted) = Index.batchText env <$> done_ /\
      Index.saved (Index.run env w alerted) =
        filter (fun i => i ∉ Index.answeredMessageIds (Index.scan env w alerted)) alerted
        ++ (Index.messageId <$> concat done_) /\
      (forall k, (k < length done_)%nat -> Index.send_resolves w k = true) /\
      (done_ = Index.alertBatches (Index.queued (Index.run env w alerted)) \/
       Index.send_resolves w (length done_) = false).
Proof.
  intros env w alerted Hroles Hpm.
  rewrite run_queued, run_sent, run_saved by done.
  unfold marked. rewrite Hpm.
  set (B := Index.alertBatches (Index.unansweredMessages (Index.scan env w alerted))).
  exists (delivered w 0 B).
  split; [apply delivered_prefix|]. split; [done|]. split; [done|]. split.
  - intros k Hk. by apply (delivered_resolved w 0 B k).
  - apply (delivered_stop w 0 B).
Qed.

Lemma prefix_is_sublist {A} (l1 l2 : list A) : l1 `prefix_of` l2 -> l1 `sublist_of` l2.
Proof. intros [k ->]. by apply sublist_inserts_r. Qed.

Lemma bind_fmap_sublist {A B K} (f : B -> K) (k : A -> K) (g : A -> B) (q : A -> bool)
    (l : list A) :
  (forall a, f (g a) = k a) ->
  f <$> (l ≫= fun a => if q a then [g a] else []) `sublist_of` k <$> l.
Proof.
  intros Hfg. induction l as [|a l IH]; [done|].
  change ((a :: l) ≫= (fun a => if q a then [g a] else []))
    with ((if q a then [g a] else []) ++ (l ≫= fun a => if q a then [g a] else [])).
  rewrite fmap_app, fmap_cons. destruct (q a); simpl.
  - rewrite Hfg. by apply sublist_skip.
  - by apply sublist_cons.
Qed.

Lemma queue_ids_sublist env w alerted :
  Index.messageId <$> Index.unansweredMessages (Index.scan env w alerted)
    `sublist_of` observedIds w.
Proof.
  rewrite scan_unanswered. unfold observedIds.
  induction (Index.textChannels w) as [|ch l IH]; [done|].
  change ((ch :: l) ≫= channelAlerts env w alerted)
    with (channelAlerts env w alerted ch ++ (l ≫= channelAlerts env w alerted)).
  change ((ch :: l) ≫= (fun c => msg_id <$> default [] (Index.allMessagesOf w c)))
    with ((msg_id <$> default [] (Index.allMessagesOf w ch)) ++
          (l ≫= fun c => msg_id <$> default [] (Index.allMessagesOf w c))).
  rewrite fmap_app. apply sublist_app; [|done].
  unfold channelAlerts. destruct (Index.allMessagesOf w ch) as [msgs|]; [|done].
  simpl. by apply bind_fmap_sublist.
Qed.

(** X10.  The alerts of a run of index.js are queued channel after channel
    and, within a channel, oldest first, with at most one alert per message
    handed to the message loop: the ids of the queue are a subsequence of
    the ids of the windows. *)
Theorem index_queue_follows_windows :
  forall env w alerted,
    Index.messageId <$> Index.queued (Index.run env w alerted) `sublist_of` observedIds w.
Proof.
  intros env w alerted. destruct (hasClientRoles (Index.guild w)) eqn:Hroles.
  - rewrite run_queued by done. apply queue_ids_sublist.
  - rewrite run_early by done. apply sublist_nil_l.
Qed.

(** X11.  A run of index.js keeps [alertedMessages] free of duplicates:
    when the loaded array has none and the message ids of the windows are
    distinct, the saved array has none. *)
Theorem index_saved_has_no_duplicates :
  forall env w alerted,
    NoDup alerted -> NoDup (observedIds w) ->
    NoDup (Index.saved (Index.run env w alerted)).
Proof.
  intros env w alerted Hnd Hobs.
  destruct (hasClientRoles (Index.guild w)) eqn:Hroles; [|by rewrite run_early].
  rewrite run_saved by done. apply NoDup_app. split; [by apply NoDup_filter|]. split.
  - intros i [_ Hin]%list_elem_of_filter (a & Ha & ->)%marked_queued.
    apply elem_of_scan_unanswered in Ha as (ch & msgs & m & _ & _ & _ & Hq & ->).
    apply queues_true in Hq. simpl in Hin. tauto.
  - unfold marked. destruct (Index.channels_fetch_pm w); [|constructor].
    eapply sublist_NoDup; [exact Hobs|].
    etrans; [|apply (queue_ids_sublist env w alerted)].
    apply fmap_sublist.
    pose proof (delivered_prefix w 0
      (Index.alertBatches (Index.unansweredMessages (Index.scan env w alerted))))
      as [rest Hrest].
    rewrite <- (alertBatches_concat (Index.unansweredMessages (Index.scan env w alerted)))
      at 2.
    rewrite Hrest at 2. rewrite concat_app. by apply sublist_inserts_r.
Qed.

Lemma answered_ids_observed env w alerted i :
  i ∈ Index.answeredMessageIds (Index.scan env w alerted) -> i ∈ observedIds w.
Proof.
  intros (ch & msgs & m & Hch & Hw & Hm & _ & ->)%elem_of_scan_answered.
  unfold observedIds. apply list_elem_of_bind. exists ch. split; [|done].
  rewrite Hw. simpl. by apply list_elem_of_fmap_2.
Qed.

(** X12.  A run of index.js touches only what it saw: an id of
    [alertedMessages] whose message is in none of the windows is saved
    again, and every saved id was either loaded or belongs to an alert
    queued by this run. *)
Theorem index_saved_frame :
  forall env w alerted i,
    (i ∈ alerted -> i ∉ observedIds w -> i ∈ Index.saved (Index.run env w alerted)) /\
    (i ∈ Index.saved (Index.run env w alerted) ->
     i ∈ alerted \/ i ∈ Index.messageId <$> Index.queued (Index.run env w alerted)).
Proof.
  intros env w alerted i.
  destruct (hasClientRoles (Index.guild w)) eqn:Hroles.
  - rewrite run_saved, run_queued by done. split.
    + intros Hin Hunseen. apply elem_of_app. left. apply list_elem_of_filter.
      split; [|done]. intros Hans. by apply Hunseen, (answered_ids_observed env w alerted).
    + intros [[_ Hin]%list_elem_of_filter|Hnew]%elem_of_app; [by left|].
      right. apply marked_queued in Hnew as (a & Ha & ->). by apply list_elem_of_fmap_2.
  - rewrite run_early by done. simpl. tauto.
Qed.

(** ** part_000: what a run queues, sends and saves *)

(** X13.  part_000 never deletes a record: the keys of the saved store are
    those of the loaded store together with the keys queued by the run. *)
Theorem part0_store_only_grows :
  forall env w d,
    dom (Part0.saved (Part0.run env w d)) =
    dom d ∪ list_to_set (Part0.queued (Part0.run env w d)).
Proof.
  intros env w d. apply set_eq. intros key.
  rewrite elem_of_union, !elem_of_dom, elem_of_list_to_set.
  destruct (run0_records env w d key) as [Hin Hout].
  destruct (decide (key ∈ Part0.queued (Part0.run env w d))) as [Hq|Hq].
  - rewrite Hin by done. split; [by right|]. by intros _.
  - rewrite Hout by done. tauto.
Qed.

(** X14.  The cooldown of part_000 holds across runs: a key alerted by one
    run is not alerted by any later run that starts from the saved store
    while no more than the cooldown has passed, whatever that run observes;
    its record stays the one written with the alert. *)
Theorem part0_no_realert_within_cooldown :
  forall env w1 w2 d key,
    key ∈ Part0.queued (Part0.run env w1 d) ->
    Part0.now w2 - Part0.now w1 <= Part0.cooldownOf env ->
    (key ∉ Part0.queued (Part0.run env w2 (Part0.saved (Part0.run env w1 d)))) /\
    Part0.saved (Part0.run env w2 (Part0.saved (Part0.run env w1 d))) !! key
      = Some (Part0.alertRecord (Part0.now w1)).
Proof.
  intros env w1 w2 d key Hq Hcool.
  destruct (run0_records env w1 d key) as [Hrec _]. specialize (Hrec Hq).
  cut (Part0.saved (Part0.run env w2 (Part0.saved (Part0.run env w1 d))) !! key
         = Some (Part0.alertRecord (Part0.now w1)) /\
       key ∉ Part0.queued (Part0.run env w2 (Part0.saved (Part0.run env w1 d))));
    [tauto|].
  apply (run0_invariant env w2 _
           (fun db q => db !! key = Some (Part0.alertRecord (Part0.now w1)) /\ key ∉ q)).
  - split; [done|apply not_elem_of_nil].
  - intros st x _ [Hdb Hnot]. rewrite stepJob_spec.
    destruct (alertsNow env w2 (Part0.db st) x) eqn:Hal; [|done]. simpl.
    assert (jobKey x <> key) as Hne.
    { intros Heq. destruct x as [[ch msgs] m]. unfold alertsNow, jobKey in *.
      rewrite Heq, Hdb in Hal. simpl in Hal.
      pose proof (decideAlert_within_cooldown env (Part0.now w1) (createdTimestamp m)
                    (Part0.now w2) (Part0.getHours w2) (Part0.getHours w2) Hcool) as Hno.
      destruct (Part0.decideAlert _ _ _ _ _ _); try done.
      all: by rewrite andb_false_r in Hal. }
    rewrite lookup_insert_ne by done. split; [done|].
    intros [Hin|Hin%list_elem_of_singleton]%elem_of_app; [by apply Hnot|congruence].
Qed.

Lemma decideAlert_first env created now h1 h2 :
  Part0.waitTimeOf env < now - created -> Part0.cooldownOf env < now ->
  Part0.decideAlert env ∅ created now h1 h2 = Part0.AlertNow.
Proof.
  intros Hold Hnow. pose proof (cooldownOf_pos env) as Hpos.
  unfold Part0.decideAlert. rewrite !lookup_empty. simpl.
  assert ((0 >? now) = false) as -> by (rewrite Z.gtb_ltb; apply Z.ltb_ge; lia).
  assert ((now - created >? Part0.waitTimeOf env) = true) as -> by (apply Z.gtb_lt; lia).
  simpl. rewrite Z.sub_0_r.
  by assert ((now >? Part0.cooldownOf env) = true) as -> by (apply Z.gtb_lt; lia).
Qed.

Lemma fold_queue_keeps env w l st key :
  key ∈ Part0.queuedKeys st -> key ∈ Part0.queuedKeys (fold_left (stepJob env w) l st).
Proof.
  intros Hin. destruct (fold_stepJob_queue env w l st) as (ks & -> & _).
  apply elem_of_app. by left.
Qed.

Lemma fold_queues_first env w l st x :
  x ∈ l ->
  alertsNow env w ∅ x = true ->
  jobKey x ∈ Part0.queuedKeys st \/ Part0.db st !! jobKey x = None ->
  jobKey x ∈ Part0.queuedKeys (fold_left (stepJob env w) l st).
Proof.
  intros Hx Hfirst. revert st. induction l as [|a l IH]; intros st Hst;
    [by apply elem_of_nil in Hx|].
  simpl. destruct Hst as [Hin|Hnone].
  { apply fold_queue_keeps. rewrite stepJob_spec.
    destruct (alertsNow env w (Part0.db st) a); [|done]. simpl.
    apply elem_of_app. by left. }
  apply elem_of_cons in Hx as [<-|Hx].
  - apply fold_queue_keeps. rewrite stepJob_spec.
    rewrite (alertsNow_same_record env w ∅ (Part0.db st) x)
      by (by rewrite Hnone, lookup_empty).
    rewrite Hfirst. simpl. apply elem_of_app. right. by left.
  - apply IH; [done|]. rewrite stepJob_spec.
    destruct (alertsNow env w (Part0.db st) a); [|by right]. simpl.
    destruct (decide (jobKey a = jobKey x)) as [Heq|Hne].
    + left. apply elem_of_app. right. rewrite Heq. by left.
    + right. by rewrite lookup_insert_ne.
Qed.

(** X15.  part_000 misses no first alert: a message of a scanned page that
    passes the author filter, has no later staff reply, is older than the
    wait time and whose key has no record yet is queued by the run (the
    clock reads more than the cooldown since the epoch). *)
Theorem part0_old_unrecorded_candidate_is_queued :
  forall env w d ch msgs m,
    hasClientRoles (Part0.guild w) = true ->
    ch ∈ Part0.textChannels w -> Part0.fetchMessages ch = Some msgs -> m ∈ msgs ->
    Part0.isCandidate env (Part0.guild w) msgs m = true ->
    d !! Part0.keyOf ch m = None ->
    Part0.waitTimeOf env < Part0.now w - createdTimestamp m ->
    Part0.cooldownOf env < Part0.now w ->
    Part0.keyOf ch m ∈ Part0.queued (Part0.run env w d).
Proof.
  intros env w d ch msgs m Hroles Hch Hf Hm Hcand Hnone Hold Hnow.
  rewrite run0_queued by done. rewrite scan_jobs.
  apply (fold_queues_first env w (jobs w) (initState d) (ch, msgs, m)).
  - apply elem_of_jobs. by exists ch, msgs, m.
  - unfold alertsNow. rewrite Hcand, lookup_empty. simpl.
    by rewrite decideAlert_first.
  - by right.
Qed.



Lemma scan0_one_text_per_key env w d :
  length (Part0.alertMessages (Part0.scan env w d)) =
  length (Part0.queuedKeys (Part0.scan env w d)).
Proof.
  rewrite scan_jobs.
  apply (fold_left_invariant _
           (fun st => length (Part0.alertMessages st) = length (Part0.queuedKeys st)));
    [done|].
  intros st x _ Hlen. rewrite stepJob_spec.
  destruct (alertsNow env w (Part0.db st) x); [|done]. simpl.
  rewrite !length_app. simpl. lia.
Qed.



(** X17.  With [TESTING] on, or outside the night hours, part_000 alerts
    only for messages older than the wait time: every queued key is the key
    of a scanned message that passed the author filter, has no later staff
    reply and is older than the wait time. *)
Theorem part0_day_alerts_only_old_messages :
  forall env w d key,
    Part0.TESTING env = true \/ Part0.isNight (Part0.getHours w) (Part0.getHours w) = false ->
    key ∈ Part0.queued (Part0.run env w d) ->
    exists ch msgs m,
      ch ∈ Part0.textChannels w /\ Part0.fetchMessages ch = Some msgs /\ m ∈ msgs /\
      key = Part0.keyOf ch m /\
      Part0.isCandidate env (Part0.guild w) msgs m = true /\
      Part0.waitTimeOf env < Part0.now w - createdTimestamp m.
Proof.
  intros env w d key Hday.
  apply (run0_invariant env w d (fun _ q => key ∈ q -> _)).
  - by intros ?%elem_of_nil.
  - intros st x Hx IH. rewrite stepJob_spec.
    destruct (alertsNow env w (Part0.db st) x) eqn:Hal; [|done]. simpl.
    intros [Hq|Hq%list_elem_of_singleton]%elem_of_app; [by apply IH|].
    apply elem_of_jobs in Hx as (ch & msgs & m & Hch & Hf & Hm & ->).
    exists ch, msgs, m. simpl in Hal, Hq.
    apply andb_true_iff in Hal as [Hcand Hdec].
    repeat split; try done.
    apply (gate_outside_night env (default ∅ (Part0.db st !! Part0.keyOf ch m))
             (createdTimestamp m) (Part0.now w) (Part0.getHours w) (Part0.getHours w));
      [done|].
    intros Hno. by rewrite Hno in Hdec.
Qed.

Lemma sendAll_same_sends w w' n alerts :
  (forall k, Part0.send_resolves w k = Part0.send_resolves w' k) ->
  Part0.sendAll w n alerts = Part0.sendAll w' n alerts.
Proof.
  intros Hsame. revert n. induction alerts as [|a rest IH]; intros n; simpl; [done|].
  rewrite Hsame. destruct (Part0.send_resolves w' n); [by rewrite IH|done].
Qed.

(** X18.  A channel that is not text based, whose fetch is rejected, or
    whose page is empty has no effect on a run of part_000: the run queues,
    sends and saves exactly what it would without that channel. *)
Theorem part0_failed_channel_is_skipped :
  forall env g l1 ch l2 clock hour pm send d,
    isTextBased ch = false \/ Part0.fetchMessages ch = None \/
      Part0.fetchMessages ch = Some [] ->
    Part0.run env
      {| Part0.guild := g; Part0.channels_cache := l1 ++ ch :: l2;
         Part0.now := clock; Part0.getHours := hour; Part0.channels_fetch_pm := pm;
         Part0.send_resolves := send |} d =
    Part0.run env
      {| Part0.guild := g; Part0.channels_cache := l1 ++ l2;
         Part0.now := clock; Part0.getHours := hour; Part0.channels_fetch_pm := pm;
         Part0.send_resolves := send |} d.
Proof.
  intros env g l1 ch l2 clock hour pm send d Hskip.
  set (w1 := {| Part0.guild := g; Part0.channels_cache := l1 ++ ch :: l2;
                Part0.now := clock; Part0.getHours := hour;
                Part0.channels_fetch_pm := pm; Part0.send_resolves := send |}).
  set (w2 := {| Part0.guild := g; Part0.channels_cache := l1 ++ l2;
                Part0.now := clock; Part0.getHours := hour;
                Part0.channels_fetch_pm := pm; Part0.send_resolves := send |}).
  assert (Part0.scan env w1 d = Part0.scan env w2 d) as Hscan.
  { unfold Part0.scan, Part0.textChannels. simpl.
    rewrite !filter_app, filter_cons, !fold_left_app.
    assert (forall st c, Part0.scanChannel env w1 st c = Part0.scanChannel env w2 st c)
      as Hsame by done.
    rewrite (fold_left_same _ _ (filter _ l1) _ Hsame).
    case_decide as Htext.
    - simpl.
      assert (forall st, Part0.scanChannel env w1 st ch = st) as ->.
      { intros st. unfold Part0.scanChannel.
        destruct Hskip as [Hno|[-> | ->]]; [congruence|done|done]. }
      by apply fold_left_same.
    - by apply fold_left_same. }
  unfold Part0.run. simpl. rewrite Hscan.
  destruct (length _ =? 0)%nat; [done|].
  destruct (0 <? length (Part0.alertMessages _))%nat; [|done].
  destruct pm; [|done].
  by rewrite (sendAll_same_sends w1 w2).
Qed.

(** ** The role test *)

Lemma substring_all s : String.substring 0 (String.length s) s = s.
Proof. induction s as [|c s IH]; simpl; [done|]. by rewrite IH. Qed.

Lemma substring_suffix p s :
  String.substring (String.length p) (String.length s) (p +:+ s) = s.
Proof. induction p as [|c p IH]; simpl; [apply substring_all|done]. Qed.

Lemma length_append p s :
  String.length (p +:+ s) = (String.length p + String.length s)%nat.
Proof. induction p as [|c p IH]; simpl; [done|]. by rewrite IH. Qed.

Lemma substring_split i k s :
  (i + k = String.length s)%nat ->
  s = String.substring 0 i s +:+ String.substring i k s.
Proof.
  revert i k. induction s as [|c s IH]; intros i k Hlen; simpl in Hlen.
  - assert (i = 0 /\ k = 0)%nat as [-> ->] by lia. done.
  - destruct i as [|i]; simpl.
    + destruct k as [|k]; [lia|]. simpl. f_equal.
      specialize (IH 0%nat k). simpl in IH.
      assert (k = String.length s) as -> by lia.
      by rewrite substring_all.
    + rewrite (IH i k) at 1 by lia. done.
Qed.

(** X19.  The role test behind the client filter: [endsWith] is true exactly
    for the strings made of some prefix followed by the suffix, so a role
    is a client role exactly when its name is some text followed by
    [-ext] (the bare name [-ext] included). *)
Theorem endsWith_iff_suffix :
  forall s suffix,
    endsWith s suffix = true <-> exists p, s = p +:+ suffix.
Proof.
  intros s suffix. unfold endsWith. split.
  - destruct (String.length suffix <=? String.length s)%nat eqn:Hle; [|done].
    apply Nat.leb_le in Hle. intros Heq%String.eqb_eq.
    exists (String.substring 0 (String.length s - String.length suffix) s).
    rewrite <- Heq at 2. apply substring_split. lia.
  - intros [p ->]. rewrite length_append.
    assert ((String.length suffix <=? String.length p + String.length suffix)%nat = true)
      as -> by (apply Nat.leb_le; lia).
    replace (String.length p + String.length suffix - String.length suffix)%nat
      with (String.length p) by lia.
    rewrite substring_suffix. apply String.eqb_refl.
Qed.

(** * The further properties on the scenarios *)

(** X1, instance: a page of two messages gives a window of the same two. *)
Lemma window_is_permuted_prefix_of_pages_witness :
  exists fetched,
    fetched `prefix_of` pagesOf (messages_fetch (support [reply; reacted])) /\
    [reacted; reply] ≡ₚ fetched.
Proof.
  apply (window_is_permuted_prefix_of_pages
           (worldA [reply; reacted] (T0 + minutes 50) true) (support [reply; reacted])).
  reflexivity.
Defined.

(** X2, instance: after a short page not even a rejected fetch is met. *)
Lemma fetchLoop_stops_at_short_or_old_page_witness :
  Index.fetchLoop (T0 + minutes 50 - Index.timeWindow) [Some [reply; plain]; None] [] =
  Some (filter (fun m => T0 + minutes 50 - Index.timeWindow <= createdTimestamp m)
               [reply; plain]).
Proof.
  apply fetchLoop_stops_at_short_or_old_page.
  - repeat constructor. by vm_compute.
  - left. simpl. lia.
Defined.

(** X4, instance: the thumbs-up of sam is found. *)
Lemma hasStaffReaction_true_iff_witness :
  (Index.hasStaffReaction envA guild0 reacted).1 = true.
Proof.
  apply hasStaffReaction_true_iff.
  exists (thumbsUp sam), [sam], sam, staffMember.
  repeat split; try reflexivity; here.
Defined.

(** X5, instance: a message alone in its window has no reply. *)
Lemma staff_reply_is_strictly_later_witness :
  Index.hasStaffReply envA guild0 [plain] plain = false /\
  Part0.staffReplied envTest guild0 [plain] plain = false.
Proof.
  apply (proj1 (proj2 (proj2
           (staff_reply_is_strictly_later envA envTest guild0 [plain] [] plain)))).
  constructor; [by vm_compute|constructor].
Defined.

(** X6, instance: the unanswered question is queued. *)
Lemma index_queue_exact_witness :
  plainAlert ∈ Index.queued (Index.run envA (worldA [plain] (T0 + minutes 50) true) []).
Proof.
  apply index_queue_exact; [reflexivity|].
  exists (support [plain]), [plain], plain.
  repeat split; try reflexivity; try here. apply not_elem_of_nil.
Defined.

(** X7, instance: the rejected channel changes nothing. *)
Lemma index_failed_channel_is_skipped_witness :
  Index.run envA
    {| Index.guild := guild0; Index.channels_cache := [] ++ broken :: [support [plain]];
       Index.Date_now := fun _ => T0 + minutes 50; Index.channels_fetch_pm := true;
       Index.send_resolves := fun _ => true |} [] =
  Index.run envA
    {| Index.guild := guild0; Index.channels_cache := [] ++ [support [plain]];
       Index.Date_now := fun _ => T0 + minutes 50; Index.channels_fetch_pm := true;
       Index.send_resolves := fun _ => true |} [].
Proof. apply index_failed_channel_is_skipped. right. reflexivity. Defined.

(** X8, instance: six alerts make a batch of five and a batch of one. *)
Lemma alertBatches_partition_witness :
  length <$> Index.alertBatches (replicate 6 plainAlert) = [5; 1]%nat /\
  concat (Index.alertBatches (replicate 6 plainAlert)) = replicate 6 plainAlert.
Proof.
  split; [reflexivity|].
  apply (proj1 (alertBatches_partition (replicate 6 plainAlert))).
Defined.

(** X9, instance: with every send rejected nothing is sent or marked. *)
Lemma index_dispatch_stops_at_first_rejected_send_witness :
  exists done_,
    done_ `prefix_of`
      Index.alertBatches
        (Index.queued (Index.run envA (worldA [plain] (T0 + minutes 50) false) [])) /\
    Index.sent_texts (Index.run envA (worldA [plain] (T0 + minutes 50) false) [])
      = Index.batchText envA <$> done_ /\
    Index.saved (Index.run envA (worldA [plain] (T0 + minutes 50) false) []) =
      filter (fun i => i ∉ Index.answeredMessageIds
                             (Index.scan envA (worldA [plain] (T0 + minutes 50) false) []))
             []
      ++ (Index.messageId <$> concat done_) /\
    (forall k, (k < length done_)%nat ->
               Index.send_resolves (worldA [plain] (T0 + minutes 50) false) k = true) /\
    (done_ = Index.alertBatches
               (Index.queued (Index.run envA (worldA [plain] (T0 + minutes 50) false) []))
     \/ Index.send_resolves (worldA [plain] (T0 + minutes 50) false) (length done_) = false).
Proof. apply index_dispatch_stops_at_first_rejected_send; reflexivity. Defined.

(** X11, instance. *)
Lemma index_saved_has_no_duplicates_witness :
  NoDup (Index.saved (Index.run envA (worldA [plain] (T0 + minutes 50) true) ["m0"])).
Proof. apply index_saved_has_no_duplicates; nodup. Defined.

(** X12, instance: the id of a message that is no longer seen is kept. *)
Lemma index_saved_frame_witness :
  "m0" ∈ Index.saved (Index.run envA (worldA [plain] (T0 + minutes 50) true) ["m0"]).
Proof.
  apply (proj1 (index_saved_frame envA (worldA [plain] (T0 + minutes 50) true) ["m0"] "m0")).
  - here.
  - nodup.
Defined.

(** X14, instance: thirty seconds after the alert, within the testing
    cooldown of one minute, the key is not queued again. *)
Lemma part0_no_realert_within_cooldown_witness :
  "c1-m1" ∉
    Part0.queued
      (Part0.run envTest (worldB [plain] (T0 + minutes 5 + 30000) 12 true)
         (Part0.saved (Part0.run envTest (worldB [plain] (T0 + minutes 5) 12 true) ∅))).
Proof.
  apply (part0_no_realert_within_cooldown envTest
           (worldB [plain] (T0 + minutes 5) 12 true)
           (worldB [plain] (T0 + minutes 5 + 30000) 12 true) ∅ "c1-m1").
  - here.
  - by vm_compute.
Defined.

(** X15, instance: the five minute old question is queued. *)
Lemma part0_old_unrecorded_candidate_is_queued_witness :
  Part0.keyOf (support [plain]) plain ∈
    Part0.queued (Part0.run envTest (worldB [plain] (T0 + minutes 5) 12 true) ∅).
Proof.
  apply (part0_old_unrecorded_candidate_is_queued envTest
           (worldB [plain] (T0 + minutes 5) 12 true) ∅ (support [plain]) [plain] plain).
  - reflexivity.
  - here.
  - reflexivity.
  - here.
  - reflexivity.
  - apply lookup_empty.
  - by vm_compute.
  - by vm_compute.
Defined.


(** X17, instance: at 22 h in testing mode the queued key is that of a
    message older than two minutes. *)
Lemma part0_day_alerts_only_old_messages_witness :
  exists ch msgs m,
    ch ∈ Part0.textChannels (worldB [plain] (T0 + minutes 5) 22 true) /\
    Part0.fetchMessages ch = Some msgs /\ m ∈ msgs /\
    "c1-m1" = Part0.keyOf ch m /\
    Part0.isCandidate envTest (Part0.guild (worldB [plain] (T0 + minutes 5) 22 true)) msgs m
      = true /\
    Part0.waitTimeOf envTest
      < Part0.now (worldB [plain] (T0 + minutes 5) 22 true) - createdTimestamp m.
Proof.
  apply (part0_day_alerts_only_old_messages envTest
           (worldB [plain] (T0 + minutes 5) 22 true) ∅ "c1-m1").
  - left. reflexivity.
  - here.
Defined.

(** X18, instance. *)
Lemma part0_failed_channel_is_skipped_witness :
  Part0.run envTest
    {| Part0.guild := guild0; Part0.channels_cache := [] ++ broken :: [support [plain]];
       Part0.now := T0 + minutes 5; Part0.getHours := 12; Part0.channels_fetch_pm := true;
       Part0.send_resolves := fun _ => true |} ∅ =
  Part0.run envTest
    {| Part0.guild := guild0; Part0.channels_cache := [] ++ [support [plain]];
       Part0.now := T0 + minutes 5; Part0.getHours := 12; Part0.channels_fetch_pm := true;
       Part0.send_resolves := fun _ => true |} ∅.
Proof. apply part0_failed_channel_is_skipped. right. left. reflexivity. Defined.

(** X19, instance: acme-ext is a client role, Staff is not. *)
Lemma endsWith_iff_suffix_witness :
  isClientRole roleExt = true /\ ~ (exists p, role_name roleStaff = p +:+ "-ext").
Proof.
  split.
  - apply endsWith_iff_suffix. by exists "acme".
  - intros H. apply endsWith_iff_suffix in H. discriminate H.
Defined.
